(** * Bronze Tier AI Employee: log rotation and inbox watcher

    A shallow embedding of [Bronze/rotate_logs.py] and
    [Bronze/file_watcher.py], and the properties of the log parser, the date
    partition, the archive and rewrite steps, the task emitter and the
    seen-set that the specification states about them.

    Modelling conventions.
    - A Python [str] is a [string] holding the UTF-8 bytes of the text.
      Substring search, [startswith], replacement of an ASCII character and
      the lexical order [<] agree on code points and on UTF-8 bytes.  The
      regular-expression class [\d] matches one decimal digit of Unicode
      (category Nd), read from its UTF-8 bytes; a file that is not valid
      UTF-8 is a path on which reading fails.
    - A text file is the string Python reads from it (after newline
      translation); [readlines] cuts it after every newline.
    - The file system is a finite map from paths (relative to [SCRIPT_DIR])
      to contents, with two sets of paths on which reading, respectively
      writing, fails.  A write either stores the whole content or fails
      before changing anything.
    - The clock is read once per run and passed as a [datetime]. *)

From Stdlib Require Import String Ascii List Lia.
From stdpp Require Import gmap strings list fin_maps pretty.

(** ** Text: the [str] operations the two scripts use *)

Module Text.

(** [s.startswith(p)] *)
Definition startswith (p s : string) : bool := String.prefix p s.

(** [sub in s] *)
Fixpoint contains (sub s : string) : bool :=
  String.prefix sub s ||
  match s with
  | EmptyString => false
  | String _ s' => contains sub s'
  end.

(** [s.replace(old, new)] for one-character [old] and [new] *)
Fixpoint replace_char (old new : ascii) (s : string) : string :=
  match s with
  | EmptyString => EmptyString
  | String c s' =>
      String (if Ascii.eqb c old then new else c) (replace_char old new s')
  end.

(** truth value of a [str]: non-empty *)
Definition str_truthy (s : string) : bool :=
  match s with
  | EmptyString => false
  | String _ _ => true
  end.

(** truth value of a [list]: non-empty *)
Definition list_truthy {A : Type} (l : list A) : bool :=
  match l with
  | [] => false
  | _ :: _ => true
  end.

Definition newline : ascii := "010"%char.

(** [f.readlines()]: the lines of a text, each with its newline; the last
    line has none when the text does not end with one. *)
Fixpoint readlines (s : string) : list string :=
  match s with
  | EmptyString => []
  | String c s' =>
      if Ascii.eqb c newline then String c EmptyString :: readlines s'
      else match readlines s' with
           | [] => [String c EmptyString]
           | l :: ls => String c l :: ls
           end
  end.

(** [f.writelines(lines)], and repeated [s += line]: plain concatenation *)
Definition writelines (lines : list string) : string :=
  String.concat "" lines.

(** The payload of a UTF-8 continuation byte [10xxxxxx]. *)
Definition continuation (c : ascii) : option N :=
  let n := N_of_ascii c in
  if ((128 <=? n) && (n <? 192))%N then Some (n - 128)%N else None.

(** The first code point of a text in UTF-8: its number, its bytes and the
    text after it.  Python iterates a [str] by code points; on the bytes of
    valid UTF-8 a code point starts at every byte that is not a continuation
    byte. *)
Definition decode (s : string) : option (N * string * string) :=
  match s with
  | EmptyString => None
  | String c0 r0 =>
      let n0 := N_of_ascii c0 in
      if (n0 <? 128)%N then Some (n0, String c0 EmptyString, r0)
      else if (n0 <? 192)%N then None
      else if (n0 <? 224)%N then
        match r0 with
        | String c1 r1 =>
            match continuation c1 with
            | Some n1 =>
                Some (((n0 - 192) * 64 + n1)%N,
                      String c0 (String c1 EmptyString), r1)
            | None => None
            end
        | _ => None
        end
      else if (n0 <? 240)%N then
        match r0 with
        | String c1 (String c2 r2) =>
            match continuation c1, continuation c2 with
            | Some n1, Some n2 =>
                Some ((((n0 - 224) * 64 + n1) * 64 + n2)%N,
                      String c0 (String c1 (String c2 EmptyString)), r2)
            | _, _ => None
            end
        | _ => None
        end
      else
        match r0 with
        | String c1 (String c2 (String c3 r3)) =>
            match continuation c1, continuation c2, continuation c3 with
            | Some n1, Some n2, Some n3 =>
                Some (((((n0 - 240) * 64 + n1) * 64 + n2) * 64 + n3)%N,
                      String c0 (String c1 (String c2 (String c3 EmptyString))),
                      r3)
            | _, _, _ => None
            end
        | _ => None
        end
  end.

(** The code points of the digits zero of Unicode 14.0, the character
    database of CPython 3.11: each is followed by the digits one to nine of
    its script.  Together they are the category Nd, which is what [\d]
    matches in a [str] pattern. *)
Definition decimal_zeros : list N :=
  [ 48; 1632; 1776; 1984; 2406; 2534; 2662; 2790; 2918; 3046; 3174; 3302;
    3430; 3558; 3664; 3792; 3872; 4160; 4240; 6112; 6160; 6470; 6608;
    6784; 6800; 6992; 7088; 7232; 7248; 42528; 43216; 43264; 43472; 43504;
    43600; 44016; 65296; 66720; 68912; 69734; 69872; 69942; 70096; 70384;
    70736; 70864; 71248; 71360; 71472; 71904; 72016; 72784; 73040; 73120;
    92768; 92864; 93008; 120782; 120792; 120802; 120812; 120822; 123200;
    123632; 125264; 130032 ]%N.

Definition is_decimal (cp : N) : bool :=
  existsb (λ zero, (zero <=? cp) && (cp <? zero + 10))%N decimal_zeros.

(** A pattern token matched at the start of a text: the text matched and
    the text after it. *)
Abbreviation token := (string → option (string * string)).

(** [\d] *)
Definition digit : token := λ s,
  match decode s with
  | Some (cp, matched, rest) =>
      if is_decimal cp then Some (matched, rest) else None
  | None => None
  end.

(** [-] *)
Definition hyphen : token := λ s,
  match s with
  | String c rest =>
      if Ascii.eqb c "-"%char then Some (String c EmptyString, rest) else None
  | EmptyString => None
  end.

(** The tokens of a pattern, one after the other. *)
Fixpoint match_seq (pattern : list token) (s : string)
  : option (string * string) :=
  match pattern with
  | [] => Some (EmptyString, s)
  | first :: others =>
      match first s with
      | Some (m, rest) =>
          match match_seq others rest with
          | Some (m', rest') => Some (m +:+ m', rest')
          | None => None
          end
      | None => None
      end
  end.

(** the pattern [\d{4}-\d{2}-\d{2}] matched at the start of [s] *)
Definition match_date (s : string) : option string :=
  match match_seq [digit; digit; digit; digit; hyphen; digit; digit; hyphen;
                   digit; digit] s with
  | Some (m, _) => Some m
  | None => None
  end.

(** decimal numeral of [n], padded with zeros on the left to [w] digits
    ([%Y], [%m], [%d], [%H], [%M], [%S] of [strftime]) *)
Fixpoint zeros (k : nat) : string :=
  match k with
  | O => EmptyString
  | S k' => String "0"%char (zeros k')
  end.

Definition pad (w n : nat) : string :=
  let d := pretty n in zeros (w - String.length d) +:+ d.

End Text.

Import Text.

(** ** The clock *)

Record datetime := {
  year : nat; month : nat; day : nat;
  hour : nat; minute : nat; second : nat
}.

(** [now.strftime("%Y-%m-%d")] *)
Definition strftime_ymd (now : datetime) : string :=
  pad 4 (year now) +:+ "-" +:+ pad 2 (month now) +:+ "-" +:+ pad 2 (day now).

(** [now.strftime("%H:%M:%S")] *)
Definition strftime_hms (now : datetime) : string :=
  pad 2 (hour now) +:+ ":" +:+ pad 2 (minute now) +:+ ":" +:+ pad 2 (second now).

(** [now.strftime("%Y%m%d_%H%M%S")] *)
Definition strftime_stamp (now : datetime) : string :=
  pad 4 (year now) +:+ pad 2 (month now) +:+ pad 2 (day now) +:+ "_"
  +:+ pad 2 (hour now) +:+ pad 2 (minute now) +:+ pad 2 (second now).

(** ** The file system *)

Module FS.

Inductive exn := FileNotFoundError | PermissionError.

Inductive result (A : Type) :=
  | Ok (a : A)
  | Raise (e : exn).
Arguments Ok {A} a.
Arguments Raise {A} e.

Record filesystem := {
  files : gmap string string;
  unreadable : gset string;
  unwritable : gset string
}.

Definition set_files (fs : filesystem) (m : gmap string string) : filesystem :=
  {| files := m; unreadable := unreadable fs; unwritable := unwritable fs |}.

(** [open(path, 'r').read()] *)
Definition read_file (fs : filesystem) (path : string) : result string :=
  if bool_decide (path ∈ unreadable fs) then Raise PermissionError
  else match files fs !! path with
       | Some content => Ok content
       | None => Raise FileNotFoundError
       end.

(** [open(path, 'w').write(content)] *)
Definition write_file (fs : filesystem) (path content : string)
  : result filesystem :=
  if bool_decide (path ∈ unwritable fs) then Raise PermissionError
  else Ok (set_files fs (<[path := content]> (files fs))).

(** [os.path.exists(path)] *)
Definition exists_ (fs : filesystem) (path : string) : bool :=
  bool_decide (is_Some (files fs !! path)).

(** [os.path.getsize(path)]: the size is read from the directory entry, so
    that it is also known of a file that cannot be opened. *)
Definition getsize (fs : filesystem) (path : string) : result nat :=
  match files fs !! path with
  | Some content => Ok (String.length content)
  | None => Raise FileNotFoundError
  end.

(** [os.path.join(folder, name)] for a relative [name] *)
Definition join (folder name : string) : string := folder +:+ "/" +:+ name.

End FS.

Import FS.

(** ** rotate_logs.py *)

Module RotateLogs.

Definition SYSTEM_LOG_PATH : string := "System_Log.md".
Definition LOGS_FOLDER : string := "Logs".
Definition BACKUP_FOLDER : string := join LOGS_FOLDER "backups".

Definition get_today_date (now : datetime) : string := strftime_ymd now.

(** [re.search(r'(\d{4}-\d{2}-\d{2})', header_line)]: the leftmost match *)
Fixpoint parse_date_from_header (header_line : string) : option string :=
  match match_date header_line with
  | Some d => Some d
  | None =>
      match header_line with
      | EmptyString => None
      | String _ rest => parse_date_from_header rest
      end
  end.

Definition backup_path (now : datetime) : string :=
  join BACKUP_FOLDER ("System_Log_backup_" +:+ strftime_stamp now +:+ ".md").

Definition create_backup (now : datetime) (fs : filesystem)
  : filesystem * option string :=
  match read_file fs SYSTEM_LOG_PATH with
  | Raise _ => (fs, None)
  | Ok content =>
      match write_file fs (backup_path now) content with
      | Raise _ => (fs, None)
      | Ok fs' => (fs', Some (backup_path now))
      end
  end.

(** The dictionary [entries_by_date]: a [defaultdict(list)], whose items
    are kept in the order in which their keys were first inserted. *)
Abbreviation dict := (list (string * list string)).

(** [d[k].extend(v)] *)
Fixpoint dict_extend (d : dict) (k : string) (v : list string) : dict :=
  match d with
  | [] => [(k, v)]
  | (k', v') :: d' =>
      if String.eqb k' k then (k', v' ++ v) :: d'
      else (k', v') :: dict_extend d' k v
  end.

(** [d.get(k)] *)
Fixpoint dict_lookup (d : dict) (k : string) : option (list string) :=
  match d with
  | [] => None
  | (k', v') :: d' => if String.eqb k' k then Some v' else dict_lookup d' k
  end.

(** [d.get(k, [])] *)
Definition dict_get (d : dict) (k : string) : list string :=
  match dict_lookup d k with
  | Some v => v
  | None => []
  end.

Definition keys (d : dict) : list string := map fst d.

Inductive section := header | activity | footer.

(** The local variables of the parsing loop of [read_system_log]. *)
Record parser := {
  current_section : section;
  current_date : option string;
  current_entry : list string;
  header_lines : list string;
  entries_by_date : dict;
  footer_lines : list string
}.

Definition parser_init : parser :=
  {| current_section := header; current_date := None; current_entry := [];
     header_lines := []; entries_by_date := []; footer_lines := [] |}.

(** [if current_date and current_entry:
        entries_by_date[current_date].extend(current_entry)] *)
Definition flush (st : parser) : dict :=
  match current_date st with
  | Some d =>
      if str_truthy d && list_truthy (current_entry st)
      then dict_extend (entries_by_date st) d (current_entry st)
      else entries_by_date st
  | None => entries_by_date st
  end.

Definition is_activity (s : section) : bool :=
  match s with activity => true | _ => false end.

Definition is_some_truthy (d : option string) : bool :=
  match d with Some s => str_truthy s | None => false end.

(** One iteration of [for line in lines]. *)
Definition step (st : parser) (line : string) : parser :=
  if contains "## Activity Log" line then
    {| current_section := activity; current_date := current_date st;
       current_entry := current_entry st; header_lines := header_lines st;
       entries_by_date := entries_by_date st;
       footer_lines := footer_lines st |}
  else if is_activity (current_section st)
          && (contains "## Log Entry Template" line || contains "## Notes" line)
  then
    {| current_section := footer; current_date := current_date st;
       current_entry := current_entry st; header_lines := header_lines st;
       entries_by_date := flush st;
       footer_lines := footer_lines st ++ [line] |}
  else
    match current_section st with
    | header =>
        {| current_section := header; current_date := current_date st;
           current_entry := current_entry st;
           header_lines := header_lines st ++ [line];
           entries_by_date := entries_by_date st;
           footer_lines := footer_lines st |}
    | activity =>
        if startswith "###" line then
          {| current_section := activity;
             current_date := parse_date_from_header line;
             current_entry := [line]; header_lines := header_lines st;
             entries_by_date := flush st;
             footer_lines := footer_lines st |}
        else if is_some_truthy (current_date st) then
          {| current_section := activity; current_date := current_date st;
             current_entry := current_entry st ++ [line];
             header_lines := header_lines st;
             entries_by_date := entries_by_date st;
             footer_lines := footer_lines st |}
        else st
    | footer =>
        {| current_section := footer; current_date := current_date st;
           current_entry := current_entry st; header_lines := header_lines st;
           entries_by_date := entries_by_date st;
           footer_lines := footer_lines st ++ [line] |}
    end.

(** The loop over all lines, from a given parser state. *)
Definition run (st : parser) (lines : list string) : parser :=
  fold_left step lines st.

(** The part of [read_system_log] after the file is read: the loop, the
    final flush and the returned triple. *)
Definition parse_lines (lines : list string)
  : list string * dict * list string :=
  let st := run parser_init lines in
  (header_lines st, flush st, footer_lines st).

Definition read_system_log (fs : filesystem)
  : option (list string * dict * list string) :=
  match read_file fs SYSTEM_LOG_PATH with
  | Raise _ => None
  | Ok content => Some (parse_lines (readlines content))
  end.

(** [not line.startswith('###')] *)
Definition not_subheader (line : string) : bool := negb (startswith "###" line).

Definition archive_path (date : string) : string :=
  join LOGS_FOLDER (date +:+ ".md").

(** The preamble of an archive file: title, origin note, archive date. *)
Definition archive_preamble (now : datetime) (date : string) : string :=
  "# System Log Archive - " +:+ date +:+ "

"
  +:+ "> **Archived from:** System_Log.md
"
  +:+ "> **Archive date:** " +:+ get_today_date now +:+ "

"
  +:+ "---

".

Definition archive_content (now : datetime) (date : string)
  (entries : list string) : string :=
  archive_preamble now date
  +:+ writelines (filter (λ line, not_subheader line = true) entries).

(** [date and date < today] *)
Definition is_old (today date : string) : bool :=
  str_truthy date && String.ltb date today.

(** The body of [for date, entries in entries_by_date.items()]. *)
Definition archive_entry (now : datetime) (today : string)
  (acc : filesystem * nat) (item : string * list string) : filesystem * nat :=
  let '(fs, archived_count) := acc in
  let '(date, entries) := item in
  if is_old today date then
    match write_file fs (archive_path date) (archive_content now date entries) with
    | Ok fs' => (fs', S archived_count)
    | Raise _ => (fs, archived_count)
    end
  else (fs, archived_count).

Definition archive_old_entries (now : datetime) (fs : filesystem)
  (entries_by_date : dict) (today : string) : filesystem * nat :=
  fold_left (archive_entry now today) entries_by_date (fs, 0).

(** The rotation-status block and the opening of the activity section. *)
Definition rotation_status (now : datetime) (archived_count : nat) : string :=
  "## Log Rotation Status

"
  +:+ "- **Last Rotation:** " +:+ get_today_date now +:+ " at "
  +:+ strftime_hms now +:+ "
"
  +:+ "- **Entries Archived:** " +:+ pretty archived_count +:+ " date(s)
"
  +:+ "- **Archive Location:** [Logs/](Logs/) folder
"
  +:+ "- **Retention:** All logs permanently archived

"
  +:+ "📂 [View Archived Logs](Logs/)

"
  +:+ "---

".

Definition activity_heading : string :=
  "## Activity Log

" +:+ "### Today's Activity

".

(** What is written between the activity heading and the closing rule. *)
Definition activity_body (today_entries : list string) : string :=
  if list_truthy today_entries
  then writelines (filter (λ line, not_subheader line = true) today_entries)
  else "*No activity logged today.*

".

Definition rotated_content (now : datetime) (header_lines today_entries
  footer_lines : list string) (archived_count : nat) : string :=
  writelines header_lines
  +:+ rotation_status now archived_count
  +:+ activity_heading
  +:+ activity_body today_entries
  +:+ "---

"
  +:+ writelines footer_lines.

Definition write_rotated_log (now : datetime) (fs : filesystem)
  (header_lines today_entries footer_lines : list string)
  (archived_count : nat) : filesystem :=
  match write_file fs SYSTEM_LOG_PATH
          (rotated_content now header_lines today_entries footer_lines
             archived_count) with
  | Ok fs' => fs'
  | Raise _ => fs
  end.

(** What a run reports: it aborted, or the figures of its summary. *)
Inductive outcome :=
  | Aborted
  | Complete (archived_count : nat) (today_present : bool)
      (backup_path : option string).

Definition rotate_logs (now : datetime) (fs : filesystem)
  : filesystem * outcome :=
  let '(fs1, backup_path) := create_backup now fs in
  match read_system_log fs1 with
  | None => (fs1, Aborted)
  | Some (header_lines, entries_by_date, footer_lines) =>
      let today := get_today_date now in
      let '(fs2, archived_count) :=
        archive_old_entries now fs1 entries_by_date today in
      let today_entries := dict_get entries_by_date today in
      let fs3 :=
        write_rotated_log now fs2 header_lines today_entries footer_lines
          archived_count in
      (fs3, Complete archived_count (list_truthy today_entries) backup_path)
  end.

End RotateLogs.

Import RotateLogs.

(** ** file_watcher.py *)

Module FileWatcher.

Definition INBOX_FOLDER : string := "Inbox".
Definition NEEDS_ACTION_FOLDER : string := "Needs_Action".

(** The records handed to [logger]: a level and a message.  A message that
    ends with the text of an exception is cut before that text.  Console
    output ([print]) is not modelled and is taken to succeed. *)
Inductive level := INFO | WARNING | ERROR | CRITICAL.

Definition log_record : Type := level * string.

Definition get_current_timestamp (now : datetime) : string :=
  strftime_ymd now +:+ " " +:+ strftime_hms now.

(** [name] when [path] is [folder/name] *)
Definition entry_of (folder path : string) : option string :=
  let p := folder +:+ "/" in
  if String.prefix p path
  then Some (String.substring (String.length p)
               (String.length path - String.length p) path)
  else None.

(** The regular files directly inside [folder], in directory order:
    [os.listdir] filtered by [os.path.isfile]. *)
Definition listdir_files (fs : filesystem) (folder : string) : list string :=
  filter (λ name, contains "/" name = false)
    (omap (entry_of folder) (map fst (map_to_list (files fs)))).

Definition get_files_in_inbox (fs : filesystem)
  : list string * list log_record :=
  if bool_decide (INBOX_FOLDER ∈ unreadable fs)
  then ([], [(ERROR, "Permission denied accessing Inbox folder: " +:+ INBOX_FOLDER)])
  else (listdir_files fs INBOX_FOLDER, []).

(** [filename.replace(" ", "_").replace(".", "_")] *)
Definition safe_name (filename : string) : string :=
  replace_char "."%char "_"%char (replace_char " "%char "_"%char filename).

Definition task_filename (filename : string) : string :=
  "task_" +:+ safe_name filename +:+ ".md".

Definition task_path (filename : string) : string :=
  join NEEDS_ACTION_FOLDER (task_filename filename).

Definition task_content (filename : string) (file_size_bytes : nat)
  (file_size_human timestamp : string) : string :=
  "---
type: file_review
status: pending
priority: normal
source: Inbox
filename: " +:+ filename +:+ "
file_size: " +:+ pretty file_size_bytes +:+ "
created_at: " +:+ timestamp +:+ "
tags: []
---

# Task: Review File - " +:+ filename +:+ "

## File Information
- **Source**: Inbox
- **Size**: " +:+ file_size_human +:+ "
- **Detected**: " +:+ timestamp +:+ "

## Required Actions
- [ ] Review the file content
- [ ] Decide what action is needed
- [ ] Tag appropriately (urgent/invoice/client/personal)
- [ ] Move to Done when complete

## Notes
(Add your observations here)
".

(** The state of the watcher process: the file system it acts on, the
    global [processed_files] and the records logged so far. *)
Record watcher := {
  fsys : filesystem;
  processed_files : gset string;
  logged : list log_record
}.

Section Emitter.

(** [get_human_readable_size] formats a floating-point quotient; it is
    kept abstract. *)
Variable get_human_readable_size : nat → string.

Definition create_task_file (now : datetime) (fs : filesystem)
  (filename : string) : filesystem * bool * list log_record :=
  if exists_ fs (task_path filename) then
    (fs, false, [(WARNING, "Task already exists: " +:+ task_filename filename)])
  else
    let timestamp := get_current_timestamp now in
    let '(file_size_bytes, file_size_human, warned) :=
      match getsize fs (join INBOX_FOLDER filename) with
      | Ok n => (n, get_human_readable_size n, [])
      | Raise FileNotFoundError =>
          (0, "Unknown (file not found)",
           [(WARNING, "File disappeared before task creation: " +:+ filename)])
      | Raise _ =>
          (0, "Unknown",
           [(WARNING, "Could not get file size for " +:+ filename)])
      end in
    match write_file fs (task_path filename)
            (task_content filename file_size_bytes file_size_human timestamp) with
    | Ok fs' =>
        (fs', true,
         warned ++ [(INFO, "Created task: " +:+ task_filename filename
                           +:+ " for " +:+ filename
                           +:+ " (" +:+ file_size_human +:+ ")")])
    | Raise PermissionError =>
        (fs, false,
         warned ++ [(ERROR, "Permission denied writing task file: "
                            +:+ task_filename filename)])
    | Raise _ =>
        (fs, false,
         warned ++ [(ERROR, "Error creating task file "
                            +:+ task_filename filename)])
    end.

(** The body of [for filename in current_files]. *)
Definition process_file (now : datetime) (st : watcher) (filename : string)
  : watcher :=
  if startswith "." filename then st
  else if bool_decide (filename ∈ processed_files st) then st
  else
    let '(fs', success, records) := create_task_file now (fsys st) filename in
    let detected := [(INFO, "New file detected: " +:+ filename)] in
    if success then
      {| fsys := fs';
         processed_files := processed_files st ∪ {[ filename ]};
         logged := logged st ++ detected ++ records |}
    else
      {| fsys := fs';
         processed_files := processed_files st ∪ {[ filename ]};
         logged := logged st ++ detected ++ records
                   ++ [(WARNING, "Marked " +:+ filename
                        +:+ " as processed despite task creation failure")] |}.

Definition check_for_new_files (now : datetime) (st : watcher) : watcher :=
  let '(current_files, records) := get_files_in_inbox (fsys st) in
  fold_left (process_file now)
    current_files
    {| fsys := fsys st; processed_files := processed_files st;
       logged := logged st ++ records |}.

(** Step 3 of [main]: the files already in the inbox are marked as seen. *)
Definition mark_existing (seen : gset string) (filename : string)
  : gset string :=
  if startswith "." filename then seen else seen ∪ {[ filename ]}.

Definition initial_scan (st : watcher) : watcher :=
  let '(initial_files, records) := get_files_in_inbox (fsys st) in
  {| fsys := fsys st;
     processed_files := fold_left mark_existing initial_files (processed_files st);
     logged := logged st ++ records |}.

(** Step 4 of [main], for as many poll cycles as [cycles] has entries.
    Each cycle reads the clock once; between two cycles, while the process
    sleeps, the environment changes the file system.  No cycle raises, so
    [error_count] stays at zero and is left out. *)
Fixpoint main_loop (cycles : list (datetime * (filesystem → filesystem)))
  (st : watcher) : watcher :=
  match cycles with
  | [] => st
  | (now, environment) :: later =>
      let st' := check_for_new_files now st in
      main_loop later
        {| fsys := environment (fsys st');
           processed_files := processed_files st';
           logged := logged st' |}
  end.

Definition main (fs : filesystem)
  (cycles : list (datetime * (filesystem → filesystem))) : watcher :=
  main_loop cycles
    (initial_scan {| fsys := fs; processed_files := ∅; logged := [] |}).

End Emitter.

End FileWatcher.

Import FileWatcher.

(** ** Definitions used to state the properties *)

(** The character substitution of the destination name, in the words of
    the specification: spaces and dots become underscores. *)
Definition sanitize_char (c : ascii) : ascii :=
  if Ascii.eqb c " "%char || Ascii.eqb c "."%char then "_"%char else c.

(** The partition map without the bucket of [date]. *)
Definition dict_remove (date : string) (d : dict) : dict :=
  filter (λ item, item.1 ≠ date) d.

(** Steps 3 and 4 of [rotate_logs], for a parsed document and a given
    value of [today]. *)
Definition rotate_parsed (now : datetime) (fs : filesystem)
  (header_lines : list string) (entries_by_date : dict)
  (footer_lines : list string) (today : string) : filesystem * nat :=
  let '(fs2, archived_count) :=
    archive_old_entries now fs entries_by_date today in
  (write_rotated_log now fs2 header_lines (dict_get entries_by_date today)
     footer_lines archived_count, archived_count).

(** A line that triggers no transition of the parser. *)
Definition plain (line : string) : bool :=
  negb (contains "## Activity Log" line)
  && negb (contains "## Log Entry Template" line)
  && negb (contains "## Notes" line).

(** An activity section of a log document: its date, its sub-header line
    and the lines below it. *)
Record dated_section := {
  sec_date : string;
  sec_head : string;
  sec_body : list string
}.

Definition sec_lines (s : dated_section) : list string :=
  sec_head s :: sec_body s.

Definition sec_bucket (s : dated_section) : string * list string :=
  (sec_date s, sec_lines s).

Definition option_eqb (o : option string) (s : string) : bool :=
  match o with
  | Some d => String.eqb d s
  | None => false
  end.

Definition wf_section (s : dated_section) : bool :=
  startswith "###" (sec_head s)
  && plain (sec_head s)
  && option_eqb (parse_date_from_header (sec_head s)) (sec_date s)
  && forallb (λ line, plain line && not_subheader line) (sec_body s).

(** A footer is empty, or starts with a footer marker line; none of its
    lines holds the activity marker. *)
Definition wf_footer (ftr : list string) : bool :=
  match ftr with
  | [] => true
  | first :: _ =>
      (contains "## Log Entry Template" first || contains "## Notes" first)
      && forallb (λ line, negb (contains "## Activity Log" line)) ftr
  end.

(** The lines of a log document in the layout the parser expects. *)
Definition document (hdr : list string) (marker : string)
  (sections : list dated_section) (ftr : list string) : list string :=
  hdr ++ marker :: concat (map sec_lines sections) ++ ftr.

(** Idempotent emission with the second call counted as a success: after
    two emissions of [filename] the second has changed nothing and has
    returned [True]. *)
Definition second_emission_succeeds (size : nat → string) (now : datetime)
  (fs : filesystem) (filename : string) : Prop :=
  let '(fs1, _, _) := create_task_file size now fs filename in
  let '(fs2, success, _) := create_task_file size now fs1 filename in
  fs2 = fs1 ∧ success = true.

(** The items of the partition map that the archive step writes out:
    those with an old date whose archive file can be written. *)
Definition archived_in (locked : gset string) (today : string)
  (item : string * list string) : bool :=
  is_old today item.1 && negb (bool_decide (archive_path item.1 ∈ locked)).

(** The partition rule read as a single inequality: every bucket whose
    date is not today's gets its archive file. *)
Definition archives_all_but_today (now : datetime) (fs : filesystem)
  (entries_by_date : dict) (today : string) : Prop :=
  ∀ (date : string) (lines : list string),
    dict_lookup entries_by_date date = Some lines →
    date ≠ today →
    files (archive_old_entries now fs entries_by_date today).1
      !! archive_path date
    = Some (archive_content now date lines).

(** What holds of every partition map the parser builds: no date occurs
    twice, and no bucket is empty. *)
Definition buckets_ok (E : dict) : Prop :=
  NoDup (keys E) ∧ Forall (λ item, item.2 ≠ []) E.

(** The layout the parser expects: header lines without the activity
    marker, the activity marker line, well-formed sections with pairwise
    distinct dates, a well-formed footer. *)
Definition wf_document (hdr : list string) (marker : string)
  (sections : list dated_section) (ftr : list string) : bool :=
  forallb (λ line, negb (contains "## Activity Log" line)) hdr
  && contains "## Activity Log" marker
  && forallb wf_section sections
  && bool_decide (NoDup (map sec_date sections))
  && wf_footer ftr.

(** The partition map the parser returns for a document in that layout:
    one bucket per section, in order; when a footer follows, the end of the
    loop flushes the last bucket a second time. *)
Definition parsed_buckets (sections : list dated_section) (ftr : list string)
  : dict :=
  match ftr, last sections with
  | _ :: _, Some s =>
      dict_extend (map sec_bucket sections) (sec_date s) (sec_lines s)
  | _, _ => map sec_bucket sections
  end.

(** Parsing loses no line and adds none: header, buckets in order and
    footer together are the document.  (The parser adds no status block;
    the rewrite does.) *)
Definition lossless (lines : list string) : Prop :=
  let '(hl, E, fl) := parse_lines lines in
  hl ++ concat (map snd E) ++ fl = lines.

(** ** Sample inputs *)

Module Sample.

Definition no_failures (m : gmap string string) : filesystem :=
  {| files := m; unreadable := ∅; unwritable := ∅ |}.

Definition now : datetime :=
  {| year := 2026; month := 2; day := 12; hour := 9; minute := 5; second := 7 |}.

Definition later : datetime :=
  {| year := 2026; month := 2; day := 12; hour := 17; minute := 30; second := 0 |}.

Definition human (n : nat) : string := pretty n +:+ ".0 B".

(** A log whose only activity section is today's. *)
Definition today_only : string :=
"# System Log
## Activity Log

### 2026-02-12
- did x
".

Definition today_only_fs : filesystem :=
  no_failures {[ "System_Log.md" := today_only ]}.

(** A log whose notes mention the activity marker. *)
Definition notes_mention_marker : list string :=
  [ "## Activity Log
"; "### 2026-02-12
"; "- a
"; "## Notes
";
    "see ## Activity Log above
"; "keep me
" ].

(** A partition map with a past, a current and a future date. *)
Definition past_today_future : dict :=
  [ ("2026-02-11", ["### 2026-02-11
"; "- b
"]);
    ("2026-02-12", ["### 2026-02-12
"; "- c
"]);
    ("2026-02-13", ["### 2026-02-13
"; "- d
"]) ].

Definition inbox_fs : filesystem :=
  no_failures {[ "Inbox/My Invoice.pdf" := "abc" ]}.

Definition locked_inbox_fs : filesystem :=
  {| files := {[ "Inbox/c.txt" := "abc" ]}; unreadable := ∅;
     unwritable := {[ "Needs_Action/task_c_txt.md" ]} |}.

Definition section_10 : dated_section :=
  {| sec_date := "2026-02-10"; sec_head := "### 2026-02-10
";
     sec_body := ["- a
"] |}.

Definition section_11 : dated_section :=
  {| sec_date := "2026-02-11"; sec_head := "### 2026-02-11
";
     sec_body := ["- b
"; "
"] |}.

Definition section_12 : dated_section :=
  {| sec_date := "2026-02-12"; sec_head := "### 2026-02-12
";
     sec_body := ["- c
"] |}.

(** A log with two past sections, today's section and a footer. *)
Definition three_days : string :=
  writelines
    (document ["# System Log
"] "## Activity Log
"
       [section_10; section_11; section_12] ["## Notes
"; "n
"]).

Definition three_days_fs : filesystem :=
  no_failures {[ "System_Log.md" := three_days ]}.

End Sample.

(** ** Definitions used to state further properties *)

(** A token reads no further than the text it matches. *)
Definition token_local (t : token) : Prop :=
  ∀ s m r, t s = Some (m, r) →
    s = m +:+ r ∧ ∀ r', t (m +:+ r') = Some (m, r').

(** A string of the form [dddd-dd-dd] and nothing else, each [d] a decimal
    digit of any script. *)
Definition date_shaped (d : string) : bool := option_eqb (match_date d) d.

(** No decimal digit starts anywhere in [s]. *)
Fixpoint no_digit (s : string) : bool :=
  match s with
  | EmptyString => true
  | String _ s' =>
      match digit s with
      | Some _ => false
      | None => no_digit s'
      end
  end.

(** An ASCII digit, as [strftime] and the formatting of an [int] give
    them. *)
Definition ascii_digit (c : ascii) : bool :=
  (48 <=? nat_of_ascii c) && (nat_of_ascii c <=? 57).

(** The first byte of a code point that is not ASCII. *)
Definition lead_byte (c : ascii) : bool := (192 <=? N_of_ascii c)%N.

(** What the parser keeps about the lines it stores; [Q] is any property
    of the lines it is given. *)
Definition stored_ok (Q : string → Prop) (line : string) : Prop :=
  contains "## Activity Log" line = false ∧ Q line.

Definition bucket_line_ok (Q : string → Prop) (line : string) : Prop :=
  plain line = true ∧ Q line.

(** A bucket starts with a sub-header line that holds its date, and its
    lines hold no marker. *)
Definition bucket_ok (Q : string → Prop) (item : string * list string)
  : Prop :=
  date_shaped item.1 = true
  ∧ (∃ h rest, item.2 = h :: rest
               ∧ startswith "###" h = true
               ∧ parse_date_from_header h = Some item.1)
  ∧ Forall (bucket_line_ok Q) item.2.

Definition entry_ok (Q : string → Prop) (cd : option string)
  (ce : list string) : Prop :=
  match ce with
  | [] => cd = None
  | h :: _ => startswith "###" h = true ∧ parse_date_from_header h = cd
  end
  ∧ Forall (bucket_line_ok Q) ce.

Definition parser_ok (Q : string → Prop) (st : parser) : Prop :=
  NoDup (keys (entries_by_date st))
  ∧ Forall (bucket_ok Q) (entries_by_date st)
  ∧ entry_ok Q (current_date st) (current_entry st)
  ∧ Forall (stored_ok Q) (header_lines st)
  ∧ Forall (stored_ok Q) (footer_lines st).

(** A run of lines of the activity part: a sub-header line, dated or not,
    and the lines below it. *)
Record block := {
  blk_head : string;
  blk_body : list string
}.

Definition blk_lines (b : block) : list string := blk_head b :: blk_body b.

Definition blk_date (b : block) : option string :=
  parse_date_from_header (blk_head b).

Definition wf_block (b : block) : bool :=
  startswith "###" (blk_head b)
  && plain (blk_head b)
  && forallb (λ line, plain line && not_subheader line) (blk_body b).

(** The lines of a log with one activity marker: header, marker, lines
    before the first sub-header, blocks, footer. *)
Definition layout (hdr : list string) (marker : string) (stray : list string)
  (blocks : list block) (ftr : list string) : list string :=
  hdr ++ marker :: stray ++ concat (map blk_lines blocks) ++ ftr.

Definition wf_layout (hdr : list string) (marker : string)
  (stray : list string) (blocks : list block) (ftr : list string) : bool :=
  forallb (λ line, negb (contains "## Activity Log" line)) hdr
  && contains "## Activity Log" marker
  && forallb (λ line, plain line && not_subheader line) stray
  && forallb wf_block blocks
  && wf_footer ftr.

(** What a block adds to the partition map: its lines, under its date; a
    block without a date adds nothing. *)
Definition add_block (E : dict) (b : block) : dict :=
  match blk_date b with
  | Some d => dict_extend E d (blk_lines b)
  | None => E
  end.

Definition collect (blocks : list block) : dict :=
  fold_left add_block blocks [].

(** The partition map of a log in that layout; with a footer, the last
    block is added once more. *)
Definition parsed_layout (blocks : list block) (ftr : list string) : dict :=
  match ftr, last blocks with
  | _ :: _, Some b => add_block (collect blocks) b
  | _, _ => collect blocks
  end.

(** The lines of the blocks dated [d], in document order. *)
Definition lines_dated (d : string) (blocks : list block) : list string :=
  concat (map blk_lines (filter (λ b, blk_date b = Some d) blocks)).

(** The bucket that the end of the loop adds, seen from a state of the
    parser: the open bucket, flushed a second time. *)
Definition reflush (st : parser) : dict :=
  flush {| current_section := footer; current_date := current_date st;
           current_entry := current_entry st; header_lines := header_lines st;
           entries_by_date := flush st; footer_lines := footer_lines st |}.

(** The lines that the end of the loop adds to the bucket of [d]: with a
    footer, those of the last block when it is dated [d]. *)
Definition flushed_again (d : string) (blocks : list block)
  (ftr : list string) : list string :=
  match ftr, last blocks with
  | _ :: _, Some b => if decide (blk_date b = Some d) then blk_lines b else []
  | _, _ => []
  end.

(** Further sample inputs. *)
Module MoreSamples.

(** A log with a line before the first sub-header, two sections of the
    same date around a section without a date, and a footer. *)
Definition mixed_blocks : list block :=
  [ {| blk_head := "### 2026-02-10
"; blk_body := ["- a
"] |};
    {| blk_head := "### Later
"; blk_body := ["- lost
"] |};
    {| blk_head := "### 2026-02-10 (evening)
"; blk_body := ["- b
"] |} ].

Definition mixed_log : list string :=
  layout ["# System Log
"] "## Activity Log
" ["stray
"] mixed_blocks ["## Notes
"].

(** A file system in which the archive of 2026-02-11 cannot be written. *)
Definition locked_archive_fs : filesystem :=
  {| files := ∅; unreadable := ∅;
     unwritable := {[ "Logs/2026-02-11.md" ]} |}.

(** A log that cannot be rewritten and whose backup cannot be written. *)
Definition read_only_log_fs : filesystem :=
  {| files := {[ "System_Log.md" := Sample.three_days ]}; unreadable := ∅;
     unwritable := {[ "System_Log.md";
                      "Logs/backups/System_Log_backup_20260212_090507.md" ]} |}.

(** The log of [Sample.three_days] with the newest section first. *)
Definition newest_first : string :=
  writelines
    (document ["# System Log
"] "## Activity Log
"
       [Sample.section_12; Sample.section_11; Sample.section_10] ["## Notes
"; "n
"]).

Definition newest_first_fs : filesystem :=
  Sample.no_failures {[ "System_Log.md" := newest_first ]}.

End MoreSamples.

(** No file of [fs] is missing from [fs']. *)
Definition keeps_files (fs fs' : filesystem) : Prop :=
  ∀ p : string, is_Some (files fs !! p) → is_Some (files fs' !! p).

(** The filenames of a listing that are not hidden. *)
Definition visible (names : list string) : list string :=
  filter (λ name, startswith "." name = false) names.

(** What the emitter reads about the source file: its size in bytes and
    the size shown to the reader, with the fallbacks for a file that cannot
    be examined. *)
Definition source_size (size : nat → string) (fs : filesystem)
  (filename : string) : nat * string :=
  match getsize fs (join INBOX_FOLDER filename) with
  | Ok n => (n, size n)
  | Raise FileNotFoundError => (0, "Unknown (file not found)")
  | Raise _ => (0, "Unknown")
  end.

Module WatcherSamples.

(** An inbox with two files and a hidden file, present at startup. *)
Definition startup_fs : filesystem :=
  Sample.no_failures
    {[ "Inbox/a.txt" := "a"; "Inbox/b.txt" := "bb"; "Inbox/.DS_Store" := "" ]}.

Definition idle : datetime * (filesystem → filesystem) :=
  (Sample.now, λ fs, fs).

(** An environment that drops a new file into the inbox. *)
Definition drop_c : datetime * (filesystem → filesystem) :=
  (Sample.now, λ fs, set_files fs (<["Inbox/c.txt" := "ccc"]> (files fs))).

(** An inbox file that cannot be opened for reading. *)
Definition sealed_inbox_fs : filesystem :=
  {| files := {[ "Inbox/c.txt" := "abc" ]};
     unreadable := {[ "Inbox/c.txt" ]}; unwritable := ∅ |}.

End WatcherSamples.

(** A line as [readlines] gives it when the text goes on after it: no
    newline but the one that ends it. *)
Fixpoint proper (line : string) : bool :=
  match line with
  | EmptyString => false
  | String c EmptyString => Ascii.eqb c newline
  | String c rest => negb (Ascii.eqb c newline) && proper rest
  end.

(** Neither a newline nor a [#] occurs in [s]. *)
Fixpoint tame (s : string) : bool :=
  match s with
  | EmptyString => true
  | String c s' =>
      negb (Ascii.eqb c newline) && negb (Ascii.eqb c "#"%char) && tame s'
  end.

(** The rotation-status block, line by line, as [write_rotated_log] writes
    it. *)
Definition status_lines (now : datetime) (archived_count : nat)
  : list string :=
  [ "## Log Rotation Status
"; "
";
    "- **Last Rotation:** " +:+ get_today_date now +:+ " at "
      +:+ strftime_hms now +:+ "
";
    "- **Entries Archived:** " +:+ pretty archived_count +:+ " date(s)
";
    "- **Archive Location:** [Logs/](Logs/) folder
";
    "- **Retention:** All logs permanently archived
"; "
";
    "📂 [View Archived Logs](Logs/)
"; "
"; "---
"; "
" ].

(** The lines between the activity heading and the closing rule. *)
Definition activity_lines (today_entries : list string) : list string :=
  if list_truthy today_entries
  then filter (λ line, not_subheader line = true) today_entries
  else [ "*No activity logged today.*
"; "
" ].

(** ** Properties of the text operations *)

Lemma append_cons (c : ascii) (s t : string) :
  String c s +:+ t = String c (s +:+ t).
Proof. reflexivity. Qed.

Lemma append_empty_r (s : string) : s +:+ "" = s.
Proof. induction s as [|c s IH]; [done|]. by rewrite append_cons, IH. Qed.

Lemma append_assoc (s1 s2 s3 : string) :
  (s1 +:+ s2) +:+ s3 = s1 +:+ (s2 +:+ s3).
Proof. induction s1 as [|c s1 IH]; [done|]. by rewrite !append_cons, IH. Qed.

Lemma writelines_cons (l : string) (ls : list string) :
  writelines (l :: ls) = l +:+ writelines ls.
Proof.
  unfold writelines. destruct ls; simpl; [by rewrite append_empty_r|done].
Qed.

Lemma writelines_app (l1 l2 : list string) :
  writelines (l1 ++ l2) = writelines l1 +:+ writelines l2.
Proof.
  induction l1 as [|x l1 IH]; [done|].
  rewrite <- app_comm_cons, !writelines_cons, IH. by rewrite append_assoc.
Qed.

(** Reading the lines of a text loses nothing. *)
Lemma writelines_readlines (s : string) : writelines (readlines s) = s.
Proof.
  induction s as [|c s IH]; simpl; [done|].
  destruct (Ascii.eqb c newline).
  - by rewrite writelines_cons, IH.
  - destruct (readlines s) as [|l ls]; [by rewrite <- IH|].
    rewrite writelines_cons in IH. by rewrite writelines_cons, append_cons, IH.
Qed.

Lemma replace_char_length old new s :
  String.length (replace_char old new s) = String.length s.
Proof. induction s; simpl; congruence. Qed.

Lemma replace_char_get old new s i :
  String.get i (replace_char old new s)
  = (λ c, if Ascii.eqb c old then new else c) <$> String.get i s.
Proof.
  revert i. induction s as [|c s IH]; intros i; simpl; [done|].
  destruct i; simpl; [done|apply IH].
Qed.

(** ** The task emitter *)

(** C9. The destination name is a function of the source filename alone:
    "task_", the filename with every space and every dot replaced by an
    underscore and all other characters kept in place, then ".md"; the
    filename "My Invoice.pdf" gives "task_My_Invoice_pdf.md". *)
Theorem task_filename_sanitized (filename : string) :
  task_filename "My Invoice.pdf" = "task_My_Invoice_pdf.md"
  ∧ ∃ safe : string,
      task_filename filename = "task_" +:+ safe +:+ ".md"
      ∧ String.length safe = String.length filename
      ∧ ∀ i : nat, String.get i safe = sanitize_char <$> String.get i filename.
Proof.
  split; [reflexivity|].
  exists (safe_name filename). split; [reflexivity|]. split.
  - unfold safe_name. by rewrite !replace_char_length.
  - intros i. unfold safe_name. rewrite !replace_char_get.
    destruct (String.get i filename) as [c|]; simpl; [|done].
    f_equal. unfold sanitize_char.
    destruct (Ascii.eqb c " ") eqn:Hsp; simpl; [done|].
    by destruct (Ascii.eqb c ".").
Qed.

Lemma exists_after_write fs path content fs' :
  write_file fs path content = Ok fs' →
  exists_ fs' path = true
  ∧ files fs' = <[path := content]> (files fs)
  ∧ unwritable fs' = unwritable fs ∧ unreadable fs' = unreadable fs.
Proof.
  unfold write_file. case_bool_decide; [done|]. intros [= <-].
  unfold exists_. simpl. split; [|done].
  apply bool_decide_eq_true. rewrite lookup_insert_eq. by eexists.
Qed.

(** A successful emission found no file at the destination and wrote it. *)
Lemma create_task_file_true size now fs filename fs1 records :
  create_task_file size now fs filename = (fs1, true, records) →
  files fs !! task_path filename = None
  ∧ ∃ content, write_file fs (task_path filename) content = Ok fs1.
Proof.
  unfold create_task_file.
  destruct (exists_ fs (task_path filename)) eqn:Hex; [done|].
  unfold exists_ in Hex. apply bool_decide_eq_false in Hex.
  assert (files fs !! task_path filename = None) as Hnone.
  { destruct (files fs !! task_path filename) eqn:E; [|done].
    destruct Hex. by eexists. }
  destruct (getsize fs (join INBOX_FOLDER filename)) as [n|[]];
    match goal with
    | |- context [write_file fs ?p ?c] =>
        destruct (write_file fs p c) as [fs'|[]] eqn:Hw
    end; intros [= <- <-]; eauto.
Qed.

(** C5 (as amended). When an emission of [filename] has created the task
    file, a second emission finds the destination present, leaves the file
    system as it is, logs the warning "Task already exists" and returns
    [False], the value that a failed write returns as well; the only file
    the two calls produce is the one at the destination path. *)
Theorem second_emission_skipped (size : nat → string) (now later : datetime)
  (fs fs1 : filesystem) (filename : string) (records : list log_record) :
  create_task_file size now fs filename = (fs1, true, records) →
  files fs !! task_path filename = None
  ∧ (∃ content, files fs1 = <[task_path filename := content]> (files fs))
  ∧ create_task_file size later fs1 filename
    = (fs1, false,
       [(WARNING, "Task already exists: " +:+ task_filename filename)]).
Proof.
  intros H. apply create_task_file_true in H as [Hnone [content Hw]].
  apply exists_after_write in Hw as (Hex & Hfiles & _).
  split; [done|]. split; [by exists content|].
  unfold create_task_file. by rewrite Hex.
Qed.

Lemma second_emission_skipped_witness :
  create_task_file Sample.human Sample.now Sample.inbox_fs "My Invoice.pdf"
  = ((create_task_file Sample.human Sample.now Sample.inbox_fs
        "My Invoice.pdf").1.1, true,
     [(INFO, "Created task: task_My_Invoice_pdf.md for My Invoice.pdf (3.0 B)")])
  ∧ create_task_file Sample.human Sample.later
      (create_task_file Sample.human Sample.now Sample.inbox_fs
         "My Invoice.pdf").1.1 "My Invoice.pdf"
    = ((create_task_file Sample.human Sample.now Sample.inbox_fs
          "My Invoice.pdf").1.1, false,
       [(WARNING, "Task already exists: task_My_Invoice_pdf.md")]).
Proof.
  assert (create_task_file Sample.human Sample.now Sample.inbox_fs
            "My Invoice.pdf"
          = ((create_task_file Sample.human Sample.now Sample.inbox_fs
                "My Invoice.pdf").1.1, true,
             [(INFO, "Created task: task_My_Invoice_pdf.md for My Invoice.pdf (3.0 B)")]))
    as H by (vm_compute; reflexivity).
  split; [exact H|].
  exact (proj2 (proj2 (second_emission_skipped Sample.human Sample.now
                         Sample.later Sample.inbox_fs _ "My Invoice.pdf" _ H))).
Defined.

(** C5 (as stated) fails: the second emission of "My Invoice.pdf" returns
    [False], not a success. *)
Lemma second_emission_reports_failure :
  ¬ second_emission_succeeds Sample.human Sample.now Sample.inbox_fs
      "My Invoice.pdf".
Proof. vm_compute. intros [_ H]. discriminate H. Qed.

(** The watcher handles the [False] of a skipped emission as a failed
    emission: it logs that the file is marked as processed despite the
    failure. *)
Lemma skipped_emission_logged_as_failure :
  let fs1 := (create_task_file Sample.human Sample.now Sample.inbox_fs
                "My Invoice.pdf").1.1 in
  logged (process_file Sample.human Sample.later
            {| fsys := fs1; processed_files := ∅; logged := [] |}
            "My Invoice.pdf")
  = [ (INFO, "New file detected: My Invoice.pdf");
      (WARNING, "Task already exists: task_My_Invoice_pdf.md");
      (WARNING, "Marked My Invoice.pdf as processed despite task creation failure") ].
Proof. vm_compute. reflexivity. Qed.

(** ** The seen-set *)

Section Seen.

Variable size : nat → string.








End Seen.



(** ** Reading the log *)

(** C4. When [System_Log.md] cannot be opened for reading, the run aborts
    and the file system is what it was: no backup, no archive and no
    rewritten log is created or modified. *)
Theorem rotate_logs_unreadable (now : datetime) (fs : filesystem) (e : exn) :
  read_file fs SYSTEM_LOG_PATH = Raise e →
  rotate_logs now fs = (fs, Aborted).
Proof.
  intros Hread. unfold rotate_logs, create_backup, read_system_log.
  by rewrite Hread; simpl; rewrite Hread.
Qed.

Lemma rotate_logs_unreadable_witness :
  read_file (Sample.no_failures ∅) SYSTEM_LOG_PATH = Raise FileNotFoundError
  ∧ rotate_logs Sample.now (Sample.no_failures ∅)
    = (Sample.no_failures ∅, Aborted).
Proof.
  split; [reflexivity|].
  apply (rotate_logs_unreadable Sample.now (Sample.no_failures ∅)
           FileNotFoundError).
  reflexivity.
Defined.

(** The activity marker is tested before the state is looked at: in every
    state, the footer included, a line that holds it moves the parser to
    the activity state and is stored nowhere. *)
Lemma step_activity_marker (st : parser) (line : string) :
  contains "## Activity Log" line = true →
  step st line
  = {| current_section := activity; current_date := current_date st;
       current_entry := current_entry st; header_lines := header_lines st;
       entries_by_date := entries_by_date st;
       footer_lines := footer_lines st |}.
Proof. intros H. unfold step. by rewrite H. Qed.

(** C7 fails on the log whose notes mention the activity marker: after
    four lines the parser is in the footer state, the fifth line takes it
    back to the activity state, and the sixth line, "keep me", ends up in
    the bucket of 2026-02-12 and not in the footer. *)
Theorem footer_left_on_activity_marker :
  current_section (run parser_init (take 4 Sample.notes_mention_marker))
  = footer
  ∧ current_section (run parser_init (take 5 Sample.notes_mention_marker))
    = activity
  ∧ parse_lines Sample.notes_mention_marker
    = ([],
       [("2026-02-12",
         ["### 2026-02-12
"; "- a
"; "### 2026-02-12
"; "- a
"; "keep me
"])],
       ["## Notes
"]).
Proof. repeat split; vm_compute; reflexivity. Qed.

(** ** Rotating twice *)

(** The sub-header that the rewrite puts above today's lines holds no
    date, so the parser opens no bucket for the lines below it. *)
Lemma todays_heading_has_no_date :
  parse_date_from_header "### Today's Activity
" = None.
Proof. reflexivity. Qed.

(** C1 fails on a log whose only section is today's.  Both runs archive
    nothing; the first run writes today's line "- did x" into the activity
    section; the second run parses no bucket at all from the rewritten log
    and writes the placeholder instead. *)
Theorem second_rotation_loses_today :
  let fs1 := (rotate_logs Sample.now Sample.today_only_fs).1 in
  let fs2 := (rotate_logs Sample.later fs1).1 in
  let today_entries := ["### 2026-02-12
"; "- did x
"] in
  let rewritten_header :=
    "# System Log
" :: readlines (rotation_status Sample.now 0) in
  read_system_log Sample.today_only_fs
  = Some (["# System Log
"], [("2026-02-12", today_entries)], [])
  ∧ (rotate_logs Sample.now Sample.today_only_fs).2
    = Complete 0 true
        (Some "Logs/backups/System_Log_backup_20260212_090507.md")
  ∧ files fs1 !! SYSTEM_LOG_PATH
    = Some (rotated_content Sample.now ["# System Log
"] today_entries [] 0)
  ∧ activity_body today_entries = "- did x
"
  ∧ read_system_log fs1 = Some (rewritten_header, [], [])
  ∧ (rotate_logs Sample.later fs1).2
    = Complete 0 false
        (Some "Logs/backups/System_Log_backup_20260212_173000.md")
  ∧ files fs2 !! SYSTEM_LOG_PATH
    = Some (rotated_content Sample.later rewritten_header [] [] 0)
  ∧ activity_body [] = "*No activity logged today.*

".
Proof.
  repeat split; vm_compute; reflexivity.
Qed.

(** ** The partition map *)

Lemma dict_lookup_extend_eq (d : dict) k v :
  dict_lookup (dict_extend d k v) k
  = Some (default [] (dict_lookup d k) ++ v).
Proof.
  induction d as [|[k' v'] d IH]; simpl.
  - by rewrite String.eqb_refl.
  - destruct (String.eqb k' k) eqn:E; simpl; rewrite E; [done|apply IH].
Qed.

Lemma dict_lookup_extend_ne (d : dict) k v k0 :
  k ≠ k0 → dict_lookup (dict_extend d k v) k0 = dict_lookup d k0.
Proof.
  intros Hne. induction d as [|[k' v'] d IH]; simpl.
  - by apply String.eqb_neq in Hne as ->.
  - destruct (String.eqb k' k) eqn:E; simpl.
    + apply String.eqb_eq in E as ->. by apply String.eqb_neq in Hne as ->.
    + destruct (String.eqb k' k0); [done|apply IH].
Qed.

Lemma dict_lookup_None (d : dict) k : dict_lookup d k = None ↔ k ∉ keys d.
Proof.
  induction d as [|[k' v'] d IH]; simpl.
  - split; [intros _; apply not_elem_of_nil|done].
  - rewrite not_elem_of_cons. destruct (String.eqb_spec k' k) as [->|Hne].
    + split; [done|by intros []].
    + rewrite IH. split; [by intros ?; split|by intros []].
Qed.

(** A new key goes to the end of the dictionary. *)
Lemma dict_extend_fresh (d : dict) k v :
  k ∉ keys d → dict_extend d k v = d ++ [(k, v)].
Proof.
  induction d as [|[k' v'] d IH]; simpl; [done|].
  rewrite not_elem_of_cons. intros [Hne Hnotin].
  assert (String.eqb k' k = false) as -> by (apply String.eqb_neq; congruence).
  by rewrite IH.
Qed.

Lemma dict_extend_keys_present (d : dict) k v :
  k ∈ keys d → keys (dict_extend d k v) = keys d.
Proof.
  induction d as [|[k' v'] d IH]; simpl; [by intros ?%elem_of_nil|].
  destruct (String.eqb_spec k' k) as [->|Hne]; [done|].
  intros [?|Hin]%elem_of_cons; [congruence|]. simpl. by rewrite IH.
Qed.

Lemma dict_extend_keys_nodup (d : dict) k v :
  NoDup (keys d) → NoDup (keys (dict_extend d k v)).
Proof.
  intros Hnd. destruct (decide (k ∈ keys d)) as [Hin|Hnotin].
  - by rewrite dict_extend_keys_present.
  - rewrite dict_extend_fresh by done. unfold keys. rewrite map_app. simpl.
    apply NoDup_app. split; [done|]. split; [|apply NoDup_singleton].
    intros x Hx ->%list_elem_of_singleton. by apply Hnotin.
Qed.

(** ** The archive step *)

Lemma length_append (s t : string) :
  String.length (s +:+ t) = String.length s + String.length t.
Proof. induction s as [|c s IH]; [done|]. rewrite append_cons. simpl. by rewrite IH. Qed.

Lemma append_inj_r (s1 s2 t : string) : s1 +:+ t = s2 +:+ t → s1 = s2.
Proof.
  revert s2. induction s1 as [|c1 s1 IH]; intros [|c2 s2] H; [done| | |].
  - change (t = String c2 (s2 +:+ t)) in H.
    apply (f_equal String.length) in H. simpl in H.
    rewrite length_append in H. lia.
  - change (String c1 (s1 +:+ t) = t) in H.
    apply (f_equal String.length) in H. simpl in H.
    rewrite length_append in H. lia.
  - rewrite !append_cons in H. injection H as -> H. f_equal. by apply IH.
Qed.

Lemma archive_path_inj (d1 d2 : string) :
  archive_path d1 = archive_path d2 → d1 = d2.
Proof.
  unfold archive_path, join. intros H.
  do 2 apply String.app_inj in H. by apply append_inj_r in H.
Qed.

Lemma archive_path_not_log (d : string) : archive_path d ≠ SYSTEM_LOG_PATH.
Proof. discriminate. Qed.

Section Archive.

Variables (now : datetime) (today : string).

Lemma archive_entry_unwritable acc item :
  unwritable (archive_entry now today acc item).1 = unwritable acc.1.
Proof.
  destruct acc as [fs n], item as [date entries]. simpl.
  destruct (is_old today date); [|done].
  destruct (write_file fs _ _) as [fs'|] eqn:Hw; [|done].
  by apply exists_after_write in Hw as (_ & _ & ? & _).
Qed.

Lemma archive_fold_unwritable (E : dict) acc :
  unwritable (fold_left (archive_entry now today) E acc).1 = unwritable acc.1.
Proof.
  revert acc. induction E as [|item E IH]; intros acc; simpl; [done|].
  by rewrite IH, archive_entry_unwritable.
Qed.

Lemma archive_entry_unreadable acc item :
  unreadable (archive_entry now today acc item).1 = unreadable acc.1.
Proof.
  destruct acc as [fs n], item as [date entries]. simpl.
  destruct (is_old today date); [|done].
  destruct (write_file fs _ _) as [fs'|] eqn:Hw; [|done].
  by apply exists_after_write in Hw as (_ & _ & _ & ?).
Qed.

Lemma archive_fold_unreadable (E : dict) acc :
  unreadable (fold_left (archive_entry now today) E acc).1 = unreadable acc.1.
Proof.
  revert acc. induction E as [|item E IH]; intros acc; simpl; [done|].
  by rewrite IH, archive_entry_unreadable.
Qed.

(** The archive step writes to the archive paths of old dates only. *)
Lemma archive_entry_other acc item p :
  (is_old today item.1 = true → archive_path item.1 ≠ p) →
  files (archive_entry now today acc item).1 !! p = files acc.1 !! p.
Proof.
  destruct acc as [fs n], item as [date entries]. simpl. intros Hp.
  destruct (is_old today date); [|done].
  destruct (write_file fs _ _) as [fs'|] eqn:Hw; [|done].
  apply exists_after_write in Hw as (_ & Hfiles & _). simpl.
  rewrite Hfiles. by rewrite lookup_insert_ne by auto.
Qed.

Lemma archive_fold_other (E : dict) acc p :
  (∀ item, item ∈ E → is_old today item.1 = true → archive_path item.1 ≠ p) →
  files (fold_left (archive_entry now today) E acc).1 !! p = files acc.1 !! p.
Proof.
  revert acc. induction E as [|item E IH]; intros acc Hp; simpl; [done|].
  rewrite IH by (intros; apply Hp; [by right|done]).
  apply archive_entry_other. apply Hp. by left.
Qed.

Lemma archive_fold_written (E : dict) acc d lines :
  NoDup (keys E) →
  dict_lookup E d = Some lines →
  is_old today d = true →
  archive_path d ∉ unwritable acc.1 →
  files (fold_left (archive_entry now today) E acc).1 !! archive_path d
  = Some (archive_content now d lines).
Proof.
  revert acc. induction E as [|[k v] E IH]; intros acc Hnd Hl Hold Hw;
    simpl in *; [done|].
  apply NoDup_cons in Hnd as [Hk Hnd].
  destruct (String.eqb_spec k d) as [->|Hne].
  - injection Hl as ->.
    rewrite archive_fold_other.
    + destruct acc as [fs n]. simpl in *. rewrite Hold.
      unfold write_file. rewrite bool_decide_eq_false_2 by done. simpl.
      by rewrite lookup_insert_eq.
    + intros [k' v'] Hin _ Heq%archive_path_inj. simpl in Heq. subst k'.
      apply Hk. unfold keys. apply list_elem_of_fmap. by exists (d, v').
  - apply IH; [done..|]. by rewrite archive_entry_unwritable.
Qed.

Lemma archive_fold_count (E : dict) acc :
  (fold_left (archive_entry now today) E acc).2
  = acc.2 + length (filter (λ item, archived_in (unwritable acc.1) today item = true) E).
Proof.
  revert acc. induction E as [|[k v] E IH]; intros [fs n]; [simpl; lia|].
  change (fold_left (archive_entry now today) ((k, v) :: E) (fs, n))
    with (fold_left (archive_entry now today) E
            (archive_entry now today (fs, n) (k, v))).
  rewrite IH, archive_entry_unwritable, filter_cons. simpl.
  destruct (archived_in (unwritable fs) today (k, v)) eqn:Ha;
    unfold archived_in in Ha; simpl in Ha.
  - apply andb_true_iff in Ha as [Hold Hw]. rewrite Hold.
    apply negb_true_iff, bool_decide_eq_false in Hw.
    unfold write_file. rewrite bool_decide_eq_false_2 by done.
    rewrite decide_True by done. simpl. lia.
  - rewrite decide_False by done.
    destruct (is_old today k); [|done]. simpl in Ha.
    apply negb_false_iff, bool_decide_eq_true in Ha.
    unfold write_file. by rewrite bool_decide_eq_true_2 by done.
Qed.

End Archive.

(** ** The rewrite step *)

Lemma write_rotated_log_other now fs hl today_entries fl n p :
  p ≠ SYSTEM_LOG_PATH →
  files (write_rotated_log now fs hl today_entries fl n) !! p = files fs !! p.
Proof.
  intros Hp. unfold write_rotated_log.
  destruct (write_file fs _ _) as [fs'|] eqn:Hw; [|done].
  apply exists_after_write in Hw as (_ & Hfiles & _).
  rewrite Hfiles. by rewrite lookup_insert_ne.
Qed.

Lemma write_rotated_log_written now fs hl today_entries fl n :
  SYSTEM_LOG_PATH ∉ unwritable fs →
  files (write_rotated_log now fs hl today_entries fl n) !! SYSTEM_LOG_PATH
  = Some (rotated_content now hl today_entries fl n).
Proof.
  intros Hw. unfold write_rotated_log, write_file.
  rewrite bool_decide_eq_false_2 by done. simpl. by rewrite lookup_insert_eq.
Qed.

(** ** The lexical order on dates *)

Lemma ltb_irrefl (s : string) : String.ltb s s = false.
Proof.
  unfold String.ltb. generalize (String.compare_antisym s s).
  destruct (String.compare s s); simpl; congruence.
Qed.

Lemma ltb_asym (s t : string) : String.ltb s t = true → String.ltb t s = false.
Proof.
  unfold String.ltb. rewrite (String.compare_antisym t s).
  destruct (String.compare s t); simpl; congruence.
Qed.

Lemma is_old_today (today : string) : is_old today today = false.
Proof. unfold is_old. rewrite ltb_irrefl. apply andb_false_r. Qed.

Lemma is_old_future (today date : string) :
  String.ltb today date = true → is_old today date = false ∧ date ≠ today.
Proof.
  intros Hlt. split.
  - unfold is_old. rewrite (ltb_asym _ _ Hlt). apply andb_false_r.
  - intros ->. by rewrite ltb_irrefl in Hlt.
Qed.

(** ** The partition *)

Lemma rotate_parsed_archive now fs hl E fl today p :
  p ≠ SYSTEM_LOG_PATH →
  files (rotate_parsed now fs hl E fl today).1 !! p
  = files (archive_old_entries now fs E today).1 !! p.
Proof.
  intros Hp. unfold rotate_parsed.
  destruct (archive_old_entries now fs E today) as [fs2 n]. simpl.
  by apply write_rotated_log_other.
Qed.

Section Partition.

Variables (now : datetime) (fs : filesystem) (hl : list string) (E : dict)
  (fl : list string) (today : string).

Lemma rotate_parsed_old date lines :
  NoDup (keys E) →
  dict_lookup E date = Some lines →
  is_old today date = true →
  archive_path date ∉ unwritable fs →
  files (rotate_parsed now fs hl E fl today).1 !! archive_path date
  = Some (archive_content now date lines).
Proof.
  intros Hnd Hl Hold Hw.
  rewrite rotate_parsed_archive by apply archive_path_not_log.
  by apply archive_fold_written.
Qed.

Lemma rotate_parsed_not_old date :
  is_old today date = false →
  files (rotate_parsed now fs hl E fl today).1 !! archive_path date
  = files fs !! archive_path date.
Proof.
  intros Hold.
  rewrite rotate_parsed_archive by apply archive_path_not_log.
  unfold archive_old_entries. rewrite archive_fold_other; [done|].
  intros [k v] _ Hk Heq%archive_path_inj. simpl in *. congruence.
Qed.

Lemma rotate_parsed_count :
  (rotate_parsed now fs hl E fl today).2
  = length (filter (λ item, archived_in (unwritable fs) today item = true) E).
Proof.
  unfold rotate_parsed.
  pose proof (archive_fold_count now today E (fs, 0)) as Hc.
  unfold archive_old_entries.
  by destruct (fold_left (archive_entry now today) E (fs, 0)) as [fs2 n].
Qed.

Lemma rotate_parsed_log :
  SYSTEM_LOG_PATH ∉ unwritable fs →
  files (rotate_parsed now fs hl E fl today).1 !! SYSTEM_LOG_PATH
  = Some (rotated_content now hl (dict_get E today) fl
            (rotate_parsed now fs hl E fl today).2).
Proof.
  intros Hw. unfold rotate_parsed.
  destruct (archive_old_entries now fs E today) as [fs2 n] eqn:Ha. simpl.
  apply write_rotated_log_written.
  pose proof (archive_fold_unwritable now today E (fs, 0)) as Hu.
  unfold archive_old_entries in Ha. rewrite Ha in Hu. simpl in Hu.
  by rewrite Hu.
Qed.

End Partition.

(** Steps 3 and 4 of [rotate_logs] are [rotate_parsed] at today's date. *)
Lemma rotate_logs_parsed now fs hl E fl :
  read_system_log (create_backup now fs).1 = Some (hl, E, fl) →
  rotate_logs now fs
  = ((rotate_parsed now (create_backup now fs).1 hl E fl (get_today_date now)).1,
     Complete
       (rotate_parsed now (create_backup now fs).1 hl E fl (get_today_date now)).2
       (list_truthy (dict_get E (get_today_date now)))
       (create_backup now fs).2).
Proof.
  intros Hread. unfold rotate_logs, rotate_parsed.
  destruct (create_backup now fs) as [fs1 backup]. simpl in *. rewrite Hread.
  by destruct (archive_old_entries now fs1 E (get_today_date now)).
Qed.

(** C2 (as amended).  The partition has three parts.  A bucket whose date
    is strictly less than today is archived: its archive file holds the
    preamble and the bucket's lines without sub-headers, provided the file
    can be written.  A bucket of any other date gets no archive file.  The
    rewritten log holds today's bucket and no other.  A date after today is
    neither old nor today: its bucket is neither archived nor retained. *)
Theorem partition_is_three_way (now : datetime) (fs : filesystem)
  (hl : list string) (E : dict) (fl : list string) (today : string) :
  NoDup (keys E) →
  (∀ (date : string) (lines : list string),
     dict_lookup E date = Some lines →
     (is_old today date = true →
      archive_path date ∉ unwritable fs →
      files (rotate_parsed now fs hl E fl today).1 !! archive_path date
      = Some (archive_content now date lines))
     ∧ (is_old today date = false →
        files (rotate_parsed now fs hl E fl today).1 !! archive_path date
        = files fs !! archive_path date))
  ∧ (SYSTEM_LOG_PATH ∉ unwritable fs →
     files (rotate_parsed now fs hl E fl today).1 !! SYSTEM_LOG_PATH
     = Some (rotated_content now hl (dict_get E today) fl
               (rotate_parsed now fs hl E fl today).2))
  ∧ (rotate_parsed now fs hl E fl today).2
    = length (filter (λ item, archived_in (unwritable fs) today item = true) E)
  ∧ is_old today today = false
  ∧ (∀ date : string,
       String.ltb today date = true → is_old today date = false ∧ date ≠ today).
Proof.
  intros Hnd. split; [|split; [|split; [|split]]].
  - intros date lines Hl. split.
    + by apply rotate_parsed_old.
    + apply rotate_parsed_not_old.
  - apply rotate_parsed_log.
  - apply rotate_parsed_count.
  - apply is_old_today.
  - apply is_old_future.
Qed.

Lemma sample_keys_nodup : NoDup (keys Sample.past_today_future).
Proof. apply (bool_decide_unpack _). vm_compute. exact I. Qed.

Lemma partition_is_three_way_witness :
  NoDup (keys Sample.past_today_future)
  ∧ files (rotate_parsed Sample.now (Sample.no_failures ∅) [] Sample.past_today_future
             [] "2026-02-12").1 !! archive_path "2026-02-11"
    = Some (archive_content Sample.now "2026-02-11" ["### 2026-02-11
"; "- b
"])
  ∧ files (rotate_parsed Sample.now (Sample.no_failures ∅) [] Sample.past_today_future
             [] "2026-02-12").1 !! archive_path "2026-02-13"
    = None.
Proof.
  split; [exact sample_keys_nodup|]. split.
  - apply (proj1 (partition_is_three_way Sample.now (Sample.no_failures ∅) []
                    Sample.past_today_future [] "2026-02-12" sample_keys_nodup)
             "2026-02-11" _ eq_refl).
    + reflexivity.
    + apply not_elem_of_empty.
  - exact (proj2 (proj1 (partition_is_three_way Sample.now
                           (Sample.no_failures ∅) [] Sample.past_today_future
                           [] "2026-02-12" sample_keys_nodup)
                    "2026-02-13" _ eq_refl) eq_refl).
Defined.

(** C2 (as stated) fails: with today 2026-02-12, the bucket of 2026-02-13
    is not today's, and no archive file is written for it. *)
Lemma future_date_not_archived :
  ¬ archives_all_but_today Sample.now (Sample.no_failures ∅)
      Sample.past_today_future "2026-02-12".
Proof.
  intros H. specialize (H "2026-02-13" _ eq_refl).
  assert ("2026-02-13" ≠ "2026-02-12") as Hne by discriminate.
  specialize (H Hne). vm_compute in H. discriminate H.
Qed.

Lemma fold_left_filter_skip {A B : Type} (f : A → B → A) (P : B → Prop)
  `{∀ x, Decision (P x)} (l : list B) (a : A) :
  (∀ a x, ¬ P x → f a x = a) →
  fold_left f (filter P l) a = fold_left f l a.
Proof.
  intros Hskip. revert a. induction l as [|x l IH]; intros a; [done|].
  rewrite filter_cons. destruct (decide (P x)); simpl.
  - apply IH.
  - rewrite (Hskip a x) by done. apply IH.
Qed.

Lemma dict_lookup_remove_ne (E : dict) date k :
  date ≠ k → dict_lookup (dict_remove date E) k = dict_lookup E k.
Proof.
  intros Hne. unfold dict_remove.
  induction E as [|[k' v'] E IH]; [done|].
  rewrite filter_cons. simpl. destruct (decide (k' ≠ date)) as [Hk|Hk]; simpl.
  - by rewrite IH.
  - apply dec_stable in Hk. subst k'.
    by apply String.eqb_neq in Hne as ->.
Qed.

Lemma dict_lookup_remove_eq (E : dict) date :
  dict_lookup (dict_remove date E) date = None.
Proof.
  apply dict_lookup_None. unfold dict_remove, keys.
  intros ((k & v) & -> & Hin%list_elem_of_filter)%list_elem_of_fmap.
  simpl in Hin. by destruct Hin.
Qed.

(** C10.  A bucket whose date is strictly greater than today reaches no
    output of the run: the archive files, the rewritten log and the count
    are the ones of a run on the partition map without that bucket, and no
    archive file is written under its date. *)
Theorem future_bucket_dropped (now : datetime) (fs : filesystem)
  (hl : list string) (E : dict) (fl : list string) (today date : string)
  (lines : list string) :
  dict_lookup E date = Some lines →
  String.ltb today date = true →
  dict_lookup (dict_remove date E) date = None
  ∧ rotate_parsed now fs hl E fl today
    = rotate_parsed now fs hl (dict_remove date E) fl today
  ∧ files (rotate_parsed now fs hl E fl today).1 !! archive_path date
    = files fs !! archive_path date.
Proof.
  intros Hl [Hold Hne]%is_old_future.
  split; [apply dict_lookup_remove_eq|]. split.
  - unfold rotate_parsed, archive_old_entries, dict_get.
    rewrite (dict_lookup_remove_ne E date today Hne).
    unfold dict_remove. rewrite fold_left_filter_skip; [done|].
    intros [fs0 n] [k v] Hk. apply dec_stable in Hk. simpl in Hk. subst k.
    simpl. by rewrite Hold.
  - by apply rotate_parsed_not_old.
Qed.

Lemma future_bucket_dropped_witness :
  dict_lookup Sample.past_today_future "2026-02-13"
  = Some ["### 2026-02-13
"; "- d
"]
  ∧ String.ltb "2026-02-12" "2026-02-13" = true
  ∧ rotate_parsed Sample.now (Sample.no_failures ∅) [] Sample.past_today_future
      [] "2026-02-12"
    = rotate_parsed Sample.now (Sample.no_failures ∅) []
        (dict_remove "2026-02-13" Sample.past_today_future) [] "2026-02-12".
Proof.
  split; [reflexivity|]. split; [reflexivity|].
  exact (proj1 (proj2 (future_bucket_dropped Sample.now (Sample.no_failures ∅)
                         [] Sample.past_today_future [] "2026-02-12"
                         "2026-02-13" _ eq_refl eq_refl))).
Defined.

(** ** The partition maps the parser builds *)

Lemma dict_extend_ok (E : dict) k v :
  buckets_ok E → v ≠ [] → buckets_ok (dict_extend E k v).
Proof.
  intros [Hnd Hne] Hv. split; [by apply dict_extend_keys_nodup|].
  induction Hne as [|[k' v'] E Hv' Hne IH]; simpl.
  - by repeat constructor.
  - apply NoDup_cons in Hnd as [_ Hnd].
    destruct (String.eqb k' k); constructor; simpl in *; auto.
    by destruct v'.
Qed.

Lemma flush_ok (st : parser) :
  buckets_ok (entries_by_date st) → buckets_ok (flush st).
Proof.
  intros Hok. unfold flush. destruct (current_date st) as [d|]; [|done].
  destruct (str_truthy d); simpl; [|done].
  destruct (current_entry st) eqn:Hce; simpl; [done|].
  by apply dict_extend_ok.
Qed.

Lemma step_entries (st : parser) (line : string) :
  entries_by_date (step st line) = entries_by_date st
  ∨ entries_by_date (step st line) = flush st.
Proof.
  unfold step.
  destruct (contains "## Activity Log" line); [by left|].
  destruct (is_activity (current_section st) && _); [by right|].
  destruct (current_section st); [by left| |by left].
  destruct (startswith "###" line); [by right|].
  destruct (is_some_truthy (current_date st)); by left.
Qed.

Lemma run_ok (lines : list string) (st : parser) :
  buckets_ok (entries_by_date st) →
  buckets_ok (entries_by_date (run st lines)).
Proof.
  revert st. induction lines as [|line lines IH]; intros st Hok; [done|].
  apply (IH (step st line)).
  destruct (step_entries st line) as [-> | ->]; [done|by apply flush_ok].
Qed.

(** Every parsed partition map is a proper dictionary of non-empty buckets. *)
Lemma parse_lines_ok (lines : list string) :
  buckets_ok (parse_lines lines).1.2.
Proof.
  unfold parse_lines. simpl. apply flush_ok, run_ok.
  split; [apply NoDup_nil_2|constructor].
Qed.

Lemma dict_lookup_elem (E : dict) k v :
  dict_lookup E k = Some v → (k, v) ∈ E.
Proof.
  induction E as [|[k' v'] E IH]; simpl; [done|].
  destruct (String.eqb_spec k' k) as [->|Hne].
  - intros [= ->]. by left.
  - intros H. right. by apply IH.
Qed.

Lemma bucket_present (E : dict) k :
  buckets_ok E → k ∈ keys E →
  dict_lookup E k = Some (dict_get E k) ∧ list_truthy (dict_get E k) = true.
Proof.
  intros [_ Hne] Hin. unfold dict_get.
  destruct (dict_lookup E k) as [v|] eqn:Hl.
  - split; [done|]. apply dict_lookup_elem in Hl.
    rewrite Forall_forall in Hne. specialize (Hne _ Hl). simpl in Hne.
    by destruct v.
  - by apply dict_lookup_None in Hl.
Qed.

Lemma filter_keys_length (E : dict) (f : string → bool) :
  length (filter (λ item, f item.1 = true) E)
  = length (filter (λ k, f k = true) (keys E)).
Proof.
  induction E as [|[k v] E IH]; [done|].
  unfold keys. simpl. rewrite !filter_cons. simpl.
  destruct (decide (f k = true)); simpl; by rewrite IH.
Qed.

(** ** The backup *)

Lemma backup_path_not_log now : backup_path now ≠ SYSTEM_LOG_PATH.
Proof. discriminate. Qed.

Lemma create_backup_other now fs p :
  p ≠ backup_path now →
  files (create_backup now fs).1 !! p = files fs !! p.
Proof.
  intros Hp. unfold create_backup.
  destruct (read_file fs SYSTEM_LOG_PATH) as [content|]; [|done].
  destruct (write_file fs _ _) as [fs'|] eqn:Hw; [|done].
  apply exists_after_write in Hw as (_ & Hfiles & _). simpl.
  rewrite Hfiles. by rewrite lookup_insert_ne.
Qed.

Lemma create_backup_flags now fs :
  unwritable (create_backup now fs).1 = unwritable fs
  ∧ unreadable (create_backup now fs).1 = unreadable fs.
Proof.
  unfold create_backup.
  destruct (read_file fs SYSTEM_LOG_PATH) as [content|]; [|done].
  destruct (write_file fs _ _) as [fs'|] eqn:Hw; [|done].
  by apply exists_after_write in Hw as (_ & _ & ? & ?).
Qed.

(** The backup leaves the log as it is: the parse that follows reads the
    same text. *)
Lemma read_after_backup now fs :
  read_file (create_backup now fs).1 SYSTEM_LOG_PATH
  = read_file fs SYSTEM_LOG_PATH.
Proof.
  unfold read_file.
  destruct (create_backup_flags now fs) as [_ ->].
  rewrite create_backup_other; [done|].
  intros H. symmetry in H. by apply backup_path_not_log in H.
Qed.

(** ** Three days of activity *)

(** Rotation of a log whose parse yields buckets for 2026-02-10,
    2026-02-11 and 2026-02-12, on 2026-02-12 and with every path writable. *)
Lemma rotation_of_three_buckets (now : datetime) (fs : filesystem)
  (content : string) (hl : list string) (E : dict) (fl : list string) :
  get_today_date now = "2026-02-12" →
  read_file fs SYSTEM_LOG_PATH = Ok content →
  unwritable fs = ∅ →
  parse_lines (readlines content) = (hl, E, fl) →
  keys E ≡ₚ ["2026-02-10"; "2026-02-11"; "2026-02-12"] →
  files (rotate_logs now fs).1 !! "Logs/2026-02-10.md"
  = Some (archive_preamble now "2026-02-10"
          +:+ writelines (filter (λ line, not_subheader line = true)
                            (dict_get E "2026-02-10")))
  ∧ files (rotate_logs now fs).1 !! "Logs/2026-02-11.md"
    = Some (archive_preamble now "2026-02-11"
            +:+ writelines (filter (λ line, not_subheader line = true)
                              (dict_get E "2026-02-11")))
  ∧ files (rotate_logs now fs).1 !! "Logs/2026-02-12.md"
    = files fs !! "Logs/2026-02-12.md"
  ∧ files (rotate_logs now fs).1 !! "System_Log.md"
    = Some (writelines hl
            +:+ rotation_status now 2
            +:+ activity_heading
            +:+ writelines (filter (λ line, not_subheader line = true)
                              (dict_get E "2026-02-12"))
            +:+ "---

"
            +:+ writelines fl).
Proof.
  intros Htoday Hread Hw Hparse Hperm.
  assert (buckets_ok E) as Hok.
  { pose proof (parse_lines_ok (readlines content)) as H.
    by rewrite Hparse in H. }
  assert (read_system_log (create_backup now fs).1 = Some (hl, E, fl)) as Hrs.
  { unfold read_system_log. by rewrite read_after_backup, Hread, Hparse. }
  rewrite (rotate_logs_parsed _ _ _ _ _ Hrs). simpl. rewrite Htoday.
  assert (unwritable (create_backup now fs).1 = ∅) as Hw1.
  { destruct (create_backup_flags now fs) as [-> _]. exact Hw. }
  assert (∀ d, d ∈ ["2026-02-10"; "2026-02-11"; "2026-02-12"] →
               dict_lookup E d = Some (dict_get E d)
               ∧ list_truthy (dict_get E d) = true) as Hbucket.
  { intros d Hd. apply bucket_present; [done|]. by rewrite Hperm. }
  assert (dict_lookup E "2026-02-10" = Some (dict_get E "2026-02-10")) as Hl10
    by (apply Hbucket; repeat constructor).
  assert (dict_lookup E "2026-02-11" = Some (dict_get E "2026-02-11")) as Hl11
    by (apply Hbucket; repeat constructor).
  assert (list_truthy (dict_get E "2026-02-12") = true) as Ht12
    by (apply Hbucket; repeat constructor).
  assert (length (filter (λ item, archived_in ∅ "2026-02-12" item = true) E) = 2)
    as Hcount.
  { etrans;
      [exact (filter_keys_length E (λ k, archived_in ∅ "2026-02-12" (k, [])))|].
    by rewrite Hperm. }
  destruct Hok as [Hnd _].
  split; [|split; [|split]].
  - apply (rotate_parsed_old _ _ _ _ _ _ "2026-02-10"); try done.
    rewrite Hw1. apply not_elem_of_empty.
  - apply (rotate_parsed_old _ _ _ _ _ _ "2026-02-11"); try done.
    rewrite Hw1. apply not_elem_of_empty.
  - rewrite (rotate_parsed_not_old _ _ _ _ _ _ "2026-02-12") by done.
    by apply create_backup_other.
  - change "System_Log.md" with SYSTEM_LOG_PATH.
    rewrite rotate_parsed_log by (rewrite Hw1; apply not_elem_of_empty).
    rewrite rotate_parsed_count, Hw1, Hcount.
    unfold rotated_content, activity_body. by rewrite Ht12.
Qed.

(** ** Parsing a document in the expected layout *)

(** *** The date pattern *)

Lemma decode_spec (s : string) (cp : N) (m r : string) :
  decode s = Some (cp, m, r) →
  s = m +:+ r ∧ str_truthy m = true
  ∧ ∀ r', decode (m +:+ r') = Some (cp, m, r').
Proof.
  unfold decode. destruct s as [|c0 r0]; [done|].
  destruct (N_of_ascii c0 <? 128)%N eqn:H1.
  { intros [= <- <- <-]. repeat split. intros r'.
    rewrite append_cons. by rewrite H1. }
  destruct (N_of_ascii c0 <? 192)%N eqn:H2; [done|].
  destruct (N_of_ascii c0 <? 224)%N eqn:H3.
  { destruct r0 as [|c1 r1]; [done|].
    destruct (continuation c1) as [n1|] eqn:E1; [|done].
    intros [= <- <- <-]. repeat split. intros r'.
    rewrite !append_cons. by rewrite H1, H2, H3, E1. }
  destruct (N_of_ascii c0 <? 240)%N eqn:H4.
  { destruct r0 as [|c1 [|c2 r2]]; [done..|].
    destruct (continuation c1) as [n1|] eqn:E1; [|done].
    destruct (continuation c2) as [n2|] eqn:E2; [|done].
    intros [= <- <- <-]. repeat split. intros r'.
    rewrite !append_cons. by rewrite H1, H2, H3, H4, E1, E2. }
  destruct r0 as [|c1 [|c2 [|c3 r3]]]; [done..|].
  destruct (continuation c1) as [n1|] eqn:E1; [|done].
  destruct (continuation c2) as [n2|] eqn:E2; [|done].
  destruct (continuation c3) as [n3|] eqn:E3; [|done].
  intros [= <- <- <-]. repeat split. intros r'.
  rewrite !append_cons. by rewrite H1, H2, H3, H4, E1, E2, E3.
Qed.

Lemma digit_token_local : token_local digit.
Proof.
  intros s m r. unfold digit.
  destruct (decode s) as [[[cp m'] r']|] eqn:E; [|done].
  destruct (is_decimal cp) eqn:Hd; [|done]. intros [= <- <-].
  apply decode_spec in E as (-> & _ & E). split; [done|].
  intros r''. by rewrite E, Hd.
Qed.

Lemma digit_truthy (s m r : string) :
  digit s = Some (m, r) → str_truthy m = true.
Proof.
  unfold digit.
  destruct (decode s) as [[[cp m'] r']|] eqn:E; [|done].
  destruct (is_decimal cp); [|done]. intros [= <- <-].
  by apply decode_spec in E as (_ & ? & _).
Qed.

Lemma hyphen_token_local : token_local hyphen.
Proof.
  intros [|c s] m r; [done|]. unfold hyphen.
  destruct (Ascii.eqb c "-") eqn:E; [|done]. intros [= <- <-].
  split; [done|]. intros r'. rewrite append_cons. by rewrite E.
Qed.

Lemma match_seq_token_local (pattern : list token) :
  Forall token_local pattern → token_local (match_seq pattern).
Proof.
  induction 1 as [|t ts Ht _ IH]; intros s m r.
  - intros [= <- <-]. split; [done|]. by intros r'.
  - simpl. destruct (t s) as [[m1 r1]|] eqn:E1; [|done].
    destruct (match_seq ts r1) as [[m2 r2]|] eqn:E2; [|done].
    intros [= <- <-].
    apply Ht in E1 as [-> E1]. apply IH in E2 as [-> E2].
    split; [by rewrite append_assoc|]. intros r'.
    by rewrite append_assoc, E1, E2.
Qed.

Lemma date_pattern_token_local :
  Forall token_local [digit; digit; digit; digit; hyphen; digit; digit; hyphen;
                digit; digit].
Proof.
  repeat (apply List.Forall_cons; [first [apply digit_token_local|apply hyphen_token_local]|]).
  apply List.Forall_nil.
Qed.

Lemma match_date_spec (s d : string) :
  match_date s = Some d →
  ∃ rest, s = d +:+ rest ∧ ∀ rest', match_date (d +:+ rest') = Some d.
Proof.
  unfold match_date.
  destruct (match_seq _ s) as [[m r]|] eqn:E; [|done]. intros [= <-].
  apply (match_seq_token_local _ date_pattern_token_local) in E as [-> E].
  exists r. split; [done|]. intros rest'. by rewrite E.
Qed.

Lemma match_seq_first (t : token) (ts : list token) (s m r : string) :
  match_seq (t :: ts) s = Some (m, r) →
  ∃ m1 r1 m2, t s = Some (m1, r1) ∧ m = m1 +:+ m2.
Proof.
  simpl. destruct (t s) as [[m1 r1]|]; [|done].
  destruct (match_seq ts r1) as [[m2 r2]|]; [|done]. intros [= <- <-].
  by exists m1, r1, m2.
Qed.

Lemma match_date_digit (s d : string) :
  match_date s = Some d →
  ∃ m r m', digit s = Some (m, r) ∧ d = m +:+ m'.
Proof.
  unfold match_date.
  destruct (match_seq _ s) as [[m r]|] eqn:E; [|done]. intros [= <-].
  by apply match_seq_first in E.
Qed.

Lemma match_date_truthy (s d : string) :
  match_date s = Some d → str_truthy d = true.
Proof.
  intros (m & r & m' & Hd & ->)%match_date_digit.
  apply digit_truthy in Hd. by destruct m.
Qed.

Lemma prefix_append (d rest : string) : String.prefix d (d +:+ rest) = true.
Proof.
  induction d as [|c d IH]; [by destruct rest|].
  rewrite append_cons. simpl. by destruct (ascii_dec c c).
Qed.

Lemma match_date_inv (s d : string) :
  match_date s = Some d →
  date_shaped d = true ∧ String.prefix d s = true.
Proof.
  intros (rest & -> & Hd)%match_date_spec. split.
  - unfold date_shaped. specialize (Hd ""). rewrite append_empty_r in Hd.
    rewrite Hd. apply String.eqb_refl.
  - apply prefix_append.
Qed.

Lemma match_date_append (d rest : string) :
  date_shaped d = true → match_date (d +:+ rest) = Some d.
Proof.
  unfold date_shaped. destruct (match_date d) as [d'|] eqn:E; [|done].
  simpl. intros ->%String.eqb_eq.
  by apply match_date_spec in E as (_ & _ & E).
Qed.

Lemma match_date_no_digit (s : string) :
  digit s = None → match_date s = None.
Proof.
  intros H. destruct (match_date s) as [d|] eqn:E; [|done].
  apply match_date_digit in E as (m & r & m' & Hd & _). congruence.
Qed.

(** The first byte of a decimal digit is an ASCII digit or the first byte
    of a code point that is not ASCII. *)
Lemma digit_first_byte (c : ascii) (s m r : string) :
  digit (String c s) = Some (m, r) →
  ascii_digit c = true ∨ lead_byte c = true.
Proof.
  intros H. destruct (lead_byte c) eqn:Hl; [by right|left].
  destruct c as [[] [] [] [] [] [] [] []]; try discriminate Hl;
    vm_compute in H; first [discriminate H|reflexivity].
Qed.

Lemma date_shaped_first_byte (d : string) :
  date_shaped d = true →
  ∃ c d', d = String c d' ∧ (ascii_digit c = true ∨ lead_byte c = true).
Proof.
  unfold date_shaped. destruct (match_date d) as [d'|] eqn:E; [|done].
  intros _. apply match_date_digit in E as (m & r & m' & Hd & _).
  destruct d as [|c d]; [done|]. exists c, d. split; [done|].
  by eapply digit_first_byte.
Qed.

Lemma decode_append (s t : string) (cp : N) (m r : string) :
  decode s = Some (cp, m, r) → decode (s +:+ t) = Some (cp, m, r +:+ t).
Proof.
  intros (-> & _ & H)%decode_spec. by rewrite append_assoc.
Qed.

(** Text that starts with a byte that is no continuation byte does not
    complete a code point cut short before it. *)
Lemma decode_append_none (c0 : ascii) (r0 : string) (c : ascii) (t : string) :
  decode (String c0 r0) = None → continuation c = None →
  decode (String c0 (r0 +:+ String c t)) = None.
Proof.
  intros H Hc. revert H. unfold decode.
  destruct (N_of_ascii c0 <? 128)%N; [done|].
  destruct (N_of_ascii c0 <? 192)%N; [done|].
  destruct (N_of_ascii c0 <? 224)%N;
    [|destruct (N_of_ascii c0 <? 240)%N];
    destruct r0 as [|c1 [|c2 [|c3 r3]]];
    rewrite ?append_cons;
    change ("" +:+ String c t) with (String c t);
    destruct t as [|t1 [|t2 t]];
    rewrite ?Hc;
    repeat match goal with
           | |- context [continuation ?x] => destruct (continuation x)
           end;
    done.
Qed.

Lemma digit_append_none (c0 : ascii) (r0 : string) (c : ascii) (t : string) :
  digit (String c0 r0) = None → continuation c = None →
  digit (String c0 (r0 +:+ String c t)) = None.
Proof.
  unfold digit. intros H Hc.
  destruct (decode (String c0 r0)) as [[[cp m] r]|] eqn:E.
  - apply (decode_append _ (String c t)) in E. rewrite append_cons in E.
    rewrite E. by destruct (is_decimal cp).
  - by rewrite decode_append_none.
Qed.

Lemma first_byte_no_continuation (c : ascii) :
  ascii_digit c = true ∨ lead_byte c = true → continuation c = None.
Proof.
  destruct c as [[] [] [] [] [] [] [] []]; vm_compute; intuition congruence.
Qed.

Lemma parse_date_unfold (s : string) :
  parse_date_from_header s
  = match match_date s with
    | Some d => Some d
    | None =>
        match s with
        | EmptyString => None
        | String _ rest => parse_date_from_header rest
        end
    end.
Proof. by destruct s. Qed.

Lemma parse_date_truthy (s d : string) :
  parse_date_from_header s = Some d → str_truthy d = true.
Proof.
  induction s as [|c s IH]; rewrite parse_date_unfold.
  - by destruct (match_date "") eqn:E.
  - destruct (match_date (String c s)) eqn:E; [|exact IH].
    intros [= <-]. by eapply match_date_truthy.
Qed.

Lemma run_cons (st : parser) (line : string) (lines : list string) :
  run st (line :: lines) = run (step st line) lines.
Proof. reflexivity. Qed.

Lemma run_app (st : parser) (l1 l2 : list string) :
  run st (l1 ++ l2) = run (run st l1) l2.
Proof. apply fold_left_app. Qed.

(** In the header state, lines without the activity marker pile up in the
    header buffer. *)
Lemma run_header (lines : list string) cd ce hl E fl :
  forallb (λ line, negb (contains "## Activity Log" line)) lines = true →
  run {| current_section := header; current_date := cd; current_entry := ce;
         header_lines := hl; entries_by_date := E; footer_lines := fl |} lines
  = {| current_section := header; current_date := cd; current_entry := ce;
       header_lines := hl ++ lines; entries_by_date := E; footer_lines := fl |}.
Proof.
  revert hl. induction lines as [|line lines IH]; intros hl Hplain.
  - by rewrite app_nil_r.
  - apply andb_true_iff in Hplain as [Hline Hplain].
    apply negb_true_iff in Hline.
    rewrite run_cons. unfold step. rewrite Hline. simpl.
    rewrite IH by done. by rewrite <- app_assoc.
Qed.

(** In the footer state, lines without the activity marker pile up in the
    footer buffer. *)
Lemma run_footer (lines : list string) cd ce hl E fl :
  forallb (λ line, negb (contains "## Activity Log" line)) lines = true →
  run {| current_section := footer; current_date := cd; current_entry := ce;
         header_lines := hl; entries_by_date := E; footer_lines := fl |} lines
  = {| current_section := footer; current_date := cd; current_entry := ce;
       header_lines := hl; entries_by_date := E; footer_lines := fl ++ lines |}.
Proof.
  revert fl. induction lines as [|line lines IH]; intros fl Hplain.
  - by rewrite app_nil_r.
  - apply andb_true_iff in Hplain as [Hline Hplain].
    apply negb_true_iff in Hline.
    rewrite run_cons. unfold step. rewrite Hline. simpl.
    rewrite IH by done. by rewrite <- app_assoc.
Qed.

(** In the activity state with a bucket open, lines that are neither
    markers nor sub-headers are added to the open bucket. *)
Lemma run_body (lines : list string) d ce hl E fl :
  str_truthy d = true →
  forallb (λ line, plain line && not_subheader line) lines = true →
  run {| current_section := activity; current_date := Some d;
         current_entry := ce; header_lines := hl; entries_by_date := E;
         footer_lines := fl |} lines
  = {| current_section := activity; current_date := Some d;
       current_entry := ce ++ lines; header_lines := hl;
       entries_by_date := E; footer_lines := fl |}.
Proof.
  intros Hd. revert ce. induction lines as [|line lines IH]; intros ce Hok.
  - by rewrite app_nil_r.
  - apply andb_true_iff in Hok as [Hline Hok].
    apply andb_true_iff in Hline as [Hplain Hsub]. unfold plain in Hplain.
    apply andb_true_iff in Hplain as [Hplain Hn].
    apply andb_true_iff in Hplain as [Ha Ht].
    apply negb_true_iff in Ha, Ht, Hn, Hsub.
    rewrite run_cons. unfold step. simpl. rewrite Ha, Ht, Hn, Hsub, Hd. simpl.
    rewrite IH by done. by rewrite <- app_assoc.
Qed.

(** In the activity state, a section flushes the bucket that was open and
    opens its own. *)
Lemma run_section (s : dated_section) (st : parser) :
  current_section st = activity →
  wf_section s = true →
  run st (sec_lines s)
  = {| current_section := activity; current_date := Some (sec_date s);
       current_entry := sec_lines s; header_lines := header_lines st;
       entries_by_date := flush st; footer_lines := footer_lines st |}.
Proof.
  intros Hact Hwf. unfold wf_section in Hwf.
  apply andb_true_iff in Hwf as [Hwf Hbody].
  apply andb_true_iff in Hwf as [Hwf Hdate].
  apply andb_true_iff in Hwf as [Hsub Hplain].
  unfold plain in Hplain.
  apply andb_true_iff in Hplain as [Hplain Hn].
  apply andb_true_iff in Hplain as [Ha Ht].
  apply negb_true_iff in Ha, Ht, Hn.
  destruct (parse_date_from_header (sec_head s)) as [d|] eqn:Hparse; [|done].
  simpl in Hdate. apply String.eqb_eq in Hdate. subst d.
  unfold sec_lines. rewrite run_cons. unfold step.
  rewrite Ha, Hact, Ht, Hn, Hsub, Hparse. simpl.
  rewrite run_body; [done| |done]. by eapply parse_date_truthy.
Qed.

Lemma wf_section_date (s : dated_section) :
  wf_section s = true →
  str_truthy (sec_date s) = true ∧ startswith "###" (sec_head s) = true
  ∧ forallb not_subheader (sec_body s) = true.
Proof.
  intros Hwf. unfold wf_section in Hwf.
  apply andb_true_iff in Hwf as [Hwf Hbody].
  apply andb_true_iff in Hwf as [Hwf Hdate].
  apply andb_true_iff in Hwf as [Hsub _].
  split; [|split; [done|]].
  - destruct (parse_date_from_header (sec_head s)) as [d|] eqn:Hparse; [|done].
    simpl in Hdate. apply String.eqb_eq in Hdate. subst d.
    by eapply parse_date_truthy.
  - rewrite forallb_forall in *. intros line Hin.
    specialize (Hbody line Hin). by apply andb_true_iff in Hbody as [_ ?].
Qed.

(** The state the parser is in after a run of sections. *)
Lemma run_sections (sections : list dated_section) (st : parser) :
  current_section st = activity →
  forallb wf_section sections = true →
  NoDup (map sec_date sections) →
  (∀ s, s ∈ sections → sec_date s ∉ keys (flush st)) →
  let st' := run st (concat (map sec_lines sections)) in
  current_section st' = activity
  ∧ header_lines st' = header_lines st
  ∧ footer_lines st' = footer_lines st
  ∧ flush st' = flush st ++ map sec_bucket sections
  ∧ match last sections with
    | Some s =>
        current_date st' = Some (sec_date s)
        ∧ current_entry st' = sec_lines s
        ∧ entries_by_date st' ++ [sec_bucket s] = flush st'
    | None => st' = st
    end.
Proof.
  revert st. induction sections as [|s rest IH]; intros st Hact Hwf Hnd Hfresh.
  - simpl. by rewrite app_nil_r.
  - simpl in Hwf. apply andb_true_iff in Hwf as [Hs Hrest].
    simpl in Hnd. apply NoDup_cons in Hnd as [Hs_fresh Hnd].
    destruct (wf_section_date s Hs) as (Hd & _ & _).
    cbv zeta.
    change (concat (map sec_lines (s :: rest)))
      with (sec_lines s ++ concat (map sec_lines rest)).
    change (map sec_bucket (s :: rest))
      with (sec_bucket s :: map sec_bucket rest).
    rewrite run_app, (run_section s st Hact Hs).
    set (st1 := {| current_section := activity;
                   current_date := Some (sec_date s);
                   current_entry := sec_lines s;
                   header_lines := header_lines st;
                   entries_by_date := flush st;
                   footer_lines := footer_lines st |}).
    assert (flush st1 = flush st ++ [sec_bucket s]) as Hflush1.
    { unfold flush at 1. simpl. rewrite Hd. simpl.
      apply dict_extend_fresh, Hfresh. by left. }
    destruct (IH st1) as (Ha & Hh & Hf & Hfl & Hlast); [done..| |].
    { intros s' Hin. rewrite Hflush1. unfold keys. rewrite map_app. simpl.
      rewrite elem_of_app, list_elem_of_singleton.
      intros [Hk|Hk].
      - by apply (Hfresh s'); [right|].
      - apply Hs_fresh. rewrite <- Hk. apply list_elem_of_fmap. by exists s'. }
    split; [done|]. split; [done|]. split; [done|]. split.
    + by rewrite Hfl, Hflush1, <- app_assoc.
    + rewrite last_cons. destruct (last rest) as [s'|]; [done|].
      by rewrite Hlast.
Qed.

(** What the parser returns for a document in the expected layout. *)
Lemma parse_document hdr marker sections ftr :
  wf_document hdr marker sections ftr = true →
  parse_lines (document hdr marker sections ftr)
  = (hdr, parsed_buckets sections ftr, ftr).
Proof.
  intros Hwf. unfold wf_document in Hwf.
  apply andb_true_iff in Hwf as [Hwf Hftr].
  apply andb_true_iff in Hwf as [Hwf Hnd].
  apply andb_true_iff in Hwf as [Hwf Hsecs].
  apply andb_true_iff in Hwf as [Hhdr Hmarker].
  apply bool_decide_eq_true in Hnd.
  unfold parse_lines, document, parser_init.
  rewrite run_app, run_header by done.
  rewrite run_cons, step_activity_marker by done. simpl.
  rewrite run_app.
  set (st0 := {| current_section := activity; current_date := None;
                 current_entry := []; header_lines := hdr;
                 entries_by_date := []; footer_lines := [] |}).
  destruct (run_sections sections st0) as (Ha & Hh & Hf & Hfl & Hlast);
    [done..| |].
  { intros s _. apply not_elem_of_nil. }
  set (st' := run st0 (concat (map sec_lines sections))) in *.
  unfold parsed_buckets. destruct ftr as [|first rest].
  - simpl. by rewrite Hh, Hfl, Hf.
  - simpl in Hftr. apply andb_true_iff in Hftr as [Hfoot Hplain].
    apply andb_true_iff in Hplain as [Hfirst Hplain].
    apply negb_true_iff in Hfirst.
    rewrite run_cons. unfold step. rewrite Hfirst, Ha, Hfoot. simpl.
    rewrite run_footer by done. simpl. rewrite Hh, Hf. f_equal. f_equal.
    unfold flush at 1. simpl. rewrite Hfl. simpl.
    destruct (last sections) as [s|] eqn:Hl.
    + destruct Hlast as (-> & -> & _).
      apply last_Some in Hl as [front ->].
      rewrite forallb_app in Hsecs. simpl in Hsecs.
      apply andb_true_iff in Hsecs as [_ Hs].
      apply andb_true_iff in Hs as [Hs _].
      destruct (wf_section_date s Hs) as (-> & _ & _). done.
    + by rewrite Hlast.
Qed.

Lemma keys_sec_buckets (sections : list dated_section) :
  keys (map sec_bucket sections) = map sec_date sections.
Proof. unfold keys. by rewrite map_map. Qed.

Lemma lines_sec_buckets (sections : list dated_section) :
  concat (map snd (map sec_bucket sections)) = concat (map sec_lines sections).
Proof. by rewrite map_map. Qed.

Lemma dict_lookup_sec_buckets (sections : list dated_section) s :
  NoDup (map sec_date sections) →
  s ∈ sections →
  dict_lookup (map sec_bucket sections) (sec_date s) = Some (sec_lines s).
Proof.
  induction sections as [|s' rest IH]; intros Hnd Hin; [by apply elem_of_nil in Hin|].
  simpl in Hnd. apply NoDup_cons in Hnd as [Hfresh Hnd].
  apply elem_of_cons in Hin as [->|Hin]; simpl.
  - by rewrite String.eqb_refl.
  - destruct (String.eqb_spec (sec_date s') (sec_date s)) as [Heq|Hne].
    + destruct Hfresh. rewrite Heq. apply list_elem_of_fmap. by exists s.
    + by apply IH.
Qed.

Lemma same_date_same_section (sections : list dated_section) s t :
  NoDup (map sec_date sections) →
  s ∈ sections → t ∈ sections → sec_date s = sec_date t → s = t.
Proof.
  induction sections as [|s' rest IH]; intros Hnd Hs Ht Heq;
    [by apply elem_of_nil in Hs|].
  simpl in Hnd. apply NoDup_cons in Hnd as [Hfresh Hnd].
  apply elem_of_cons in Hs as [->|Hs]; apply elem_of_cons in Ht as [->|Ht].
  - done.
  - destruct Hfresh. rewrite Heq. apply list_elem_of_fmap. by exists t.
  - destruct Hfresh. rewrite <- Heq. apply list_elem_of_fmap. by exists s.
  - by apply IH.
Qed.

Lemma wf_document_nodup hdr marker sections ftr :
  wf_document hdr marker sections ftr = true →
  NoDup (map sec_date sections).
Proof.
  unfold wf_document. intros Hwf.
  apply andb_true_iff in Hwf as [Hwf _].
  apply andb_true_iff in Hwf as [_ Hnd]. by apply bool_decide_eq_true in Hnd.
Qed.

Lemma last_elem {A : Type} (l : list A) (x : A) : last l = Some x → x ∈ l.
Proof.
  intros [front ->]%last_Some. apply elem_of_app. right. by left.
Qed.

Lemma parsed_buckets_keys sections ftr :
  keys (parsed_buckets sections ftr) = map sec_date sections.
Proof.
  unfold parsed_buckets. destruct ftr as [|first rest];
    [destruct (last sections); apply keys_sec_buckets|].
  destruct (last sections) as [s|] eqn:Hl; [|apply keys_sec_buckets].
  rewrite dict_extend_keys_present; [apply keys_sec_buckets|].
  rewrite keys_sec_buckets. apply list_elem_of_fmap. exists s.
  split; [done|]. by apply last_elem.
Qed.

Lemma parsed_buckets_lookup sections ftr s :
  NoDup (map sec_date sections) →
  s ∈ sections →
  last sections ≠ Some s →
  dict_lookup (parsed_buckets sections ftr) (sec_date s) = Some (sec_lines s).
Proof.
  intros Hnd Hin Hlast. unfold parsed_buckets.
  destruct ftr as [|first rest];
    [destruct (last sections); by apply dict_lookup_sec_buckets|].
  destruct (last sections) as [t|] eqn:Hl; [|by apply dict_lookup_sec_buckets].
  rewrite dict_lookup_extend_ne; [by apply dict_lookup_sec_buckets|].
  intros Heq. apply Hlast. f_equal.
  apply (same_date_same_section sections); [done| |done|done].
  by apply last_elem.
Qed.

(** The end of the loop flushes the open bucket even when the footer
    marker has flushed it already: when a footer follows the sections, the
    bucket of the last section holds its lines twice. *)
Lemma footer_flushes_last_bucket_twice hdr marker sections s first rest :
  wf_document hdr marker (sections ++ [s]) (first :: rest) = true →
  dict_lookup
    (parse_lines (document hdr marker (sections ++ [s]) (first :: rest))).1.2
    (sec_date s)
  = Some (sec_lines s ++ sec_lines s).
Proof.
  intros Hwf. rewrite parse_document by done. simpl.
  unfold parsed_buckets. rewrite last_snoc, dict_lookup_extend_eq.
  rewrite dict_lookup_sec_buckets; [done| |].
  - by eapply wf_document_nodup.
  - apply elem_of_app. right. by left.
Qed.

(** C8 (as amended).  For a document made of header lines without the
    activity marker, one activity-marker line, dated sections with pairwise
    distinct dates and a footer: the parsed header and footer are the
    document's header and footer, the dates of the partition map are the
    dates of the sections in order, and the bucket of every section but the
    last one holds exactly the lines of its section.  When no footer
    follows, header, buckets in order and footer together are the document
    without its activity-marker line. *)
Theorem parse_keeps_layout (hdr : list string) (marker : string)
  (sections : list dated_section) (ftr : list string) :
  wf_document hdr marker sections ftr = true →
  (parse_lines (document hdr marker sections ftr)).1.1 = hdr
  ∧ (parse_lines (document hdr marker sections ftr)).2 = ftr
  ∧ keys (parse_lines (document hdr marker sections ftr)).1.2
    = map sec_date sections
  ∧ (∀ s : dated_section,
       s ∈ sections →
       last sections ≠ Some s →
       dict_lookup (parse_lines (document hdr marker sections ftr)).1.2
         (sec_date s)
       = Some (sec_lines s))
  ∧ (ftr = [] →
     (parse_lines (document hdr marker sections ftr)).1.1
     ++ concat (map snd (parse_lines (document hdr marker sections ftr)).1.2)
     ++ (parse_lines (document hdr marker sections ftr)).2
     = hdr ++ concat (map sec_lines sections) ++ ftr).
Proof.
  intros Hwf. rewrite parse_document by done. simpl.
  split; [done|]. split; [done|]. split; [apply parsed_buckets_keys|]. split.
  - intros s Hin Hlast. apply parsed_buckets_lookup; [|done..].
    by eapply wf_document_nodup.
  - intros ->. unfold parsed_buckets.
    destruct (last sections); by rewrite lines_sec_buckets.
Qed.

Lemma parse_keeps_layout_witness :
  wf_document ["# System Log
"] "## Activity Log
" [Sample.section_10; Sample.section_11] [] = true
  ∧ (parse_lines
       (document ["# System Log
"] "## Activity Log
" [Sample.section_10; Sample.section_11] [])).1.1
    ++ concat (map snd
         (parse_lines
            (document ["# System Log
"] "## Activity Log
" [Sample.section_10; Sample.section_11] [])).1.2)
    ++ (parse_lines
          (document ["# System Log
"] "## Activity Log
" [Sample.section_10; Sample.section_11] [])).2
    = ["# System Log
"] ++ concat (map sec_lines [Sample.section_10; Sample.section_11]) ++ [].
Proof.
  split; [vm_compute; reflexivity|].
  apply (parse_keeps_layout ["# System Log
"] "## Activity Log
" [Sample.section_10; Sample.section_11] []);
    [vm_compute|]; reflexivity.
Defined.

(** C8 (as stated) fails: the activity-marker line of a log is in none of
    the three parts the parser returns. *)
Lemma marker_line_not_kept : ¬ lossless (readlines Sample.today_only).
Proof. intros H. vm_compute in H. discriminate H. Qed.

Lemma filter_all {A : Type} (f : A → bool) (l : list A) :
  forallb f l = true → filter (λ x, f x = true) l = l.
Proof.
  induction l as [|x l IH]; [done|]. simpl. intros [Hx Hl]%andb_true_iff.
  rewrite filter_cons, decide_True by done. by rewrite IH.
Qed.

(** Dropping the sub-header lines of a section leaves its body. *)
Lemma filter_sec_lines (s : dated_section) :
  wf_section s = true →
  filter (λ line, not_subheader line = true) (sec_lines s) = sec_body s.
Proof.
  intros (_ & Hhead & Hbody)%wf_section_date.
  unfold sec_lines. rewrite filter_cons, decide_False.
  - by apply filter_all.
  - unfold not_subheader. by rewrite Hhead.
Qed.

Lemma dict_get_lookup (E : dict) k v :
  dict_lookup E k = Some v → dict_get E k = v.
Proof. unfold dict_get. by intros ->. Qed.

(** Rotation of a three-day log, read on the document: for a log made of
    a header, the activity marker, the sections of 2026-02-10, 2026-02-11
    and 2026-02-12 in this order and a footer (or none), the archive files hold
    the preamble followed by exactly the lines of their section without the
    sub-header, and the rewritten activity section holds only lines of the
    section of 2026-02-12: exactly its lines without the sub-header when the
    log has no footer. *)
Lemma three_day_document_rotation (now : datetime) (fs : filesystem)
  (content : string) (hdr : list string) (marker : string)
  (s10 s11 s12 : dated_section) (ftr : list string) :
  get_today_date now = "2026-02-12" →
  read_file fs SYSTEM_LOG_PATH = Ok content →
  unwritable fs = ∅ →
  readlines content = document hdr marker [s10; s11; s12] ftr →
  wf_document hdr marker [s10; s11; s12] ftr = true →
  sec_date s10 = "2026-02-10" →
  sec_date s11 = "2026-02-11" →
  sec_date s12 = "2026-02-12" →
  files (rotate_logs now fs).1 !! "Logs/2026-02-10.md"
  = Some (archive_preamble now "2026-02-10" +:+ writelines (sec_body s10))
  ∧ files (rotate_logs now fs).1 !! "Logs/2026-02-11.md"
    = Some (archive_preamble now "2026-02-11" +:+ writelines (sec_body s11))
  ∧ files (rotate_logs now fs).1 !! "Logs/2026-02-12.md"
    = files fs !! "Logs/2026-02-12.md"
  ∧ ∃ today_lines : list string,
      files (rotate_logs now fs).1 !! "System_Log.md"
      = Some (writelines hdr
              +:+ rotation_status now 2
              +:+ activity_heading
              +:+ writelines today_lines
              +:+ "---

"
              +:+ writelines ftr)
      ∧ (∀ line : string, line ∈ today_lines → line ∈ sec_body s12)
      ∧ (ftr = [] → today_lines = sec_body s12).
Proof.
  intros Htoday Hread Hw Hlines Hwf H10 H11 H12.
  pose proof (parse_document _ _ _ _ Hwf) as Hparse. rewrite <- Hlines in Hparse.
  pose proof (wf_document_nodup _ _ _ _ Hwf) as Hnd.
  assert (wf_section s10 = true ∧ wf_section s11 = true
          ∧ wf_section s12 = true) as (Hwf10 & Hwf11 & Hwf12).
  { unfold wf_document in Hwf. simpl in Hwf.
    repeat (apply andb_true_iff in Hwf as [Hwf ?]).
    repeat match goal with
           | H : _ && _ = true |- _ => apply andb_true_iff in H as [? ?]
           end. done. }
  destruct (rotation_of_three_buckets now fs content hdr
              (parsed_buckets [s10; s11; s12] ftr) ftr)
    as (Ha10 & Ha11 & Ha12 & Hlog); [done..| |].
  { rewrite parsed_buckets_keys. simpl. by rewrite H10, H11, H12. }
  assert (dict_get (parsed_buckets [s10; s11; s12] ftr) "2026-02-10"
          = sec_lines s10) as Hb10.
  { apply dict_get_lookup. rewrite <- H10.
    apply parsed_buckets_lookup; [done|by left|].
    simpl. intros [= Heq]. rewrite Heq, H10 in H12. discriminate H12. }
  assert (dict_get (parsed_buckets [s10; s11; s12] ftr) "2026-02-11"
          = sec_lines s11) as Hb11.
  { apply dict_get_lookup. rewrite <- H11.
    apply parsed_buckets_lookup; [done|by right; left|].
    simpl. intros [= Heq]. rewrite Heq, H11 in H12. discriminate H12. }
  rewrite Hb10, filter_sec_lines in Ha10 by done.
  rewrite Hb11, filter_sec_lines in Ha11 by done.
  split; [done|]. split; [done|]. split; [done|].
  eexists. split; [exact Hlog|].
  assert (dict_lookup (map sec_bucket [s10; s11; s12]) "2026-02-12"
          = Some (sec_lines s12)) as Hl12.
  { rewrite <- H12. apply dict_lookup_sec_buckets; [done|].
    right; right; by left. }
  unfold parsed_buckets. destruct ftr as [|first rest]; simpl last; cbv iota.
  - rewrite (dict_get_lookup _ _ _ Hl12), filter_sec_lines by done.
    split; [by intros line|done].
  - erewrite dict_get_lookup;
      [|rewrite H12, dict_lookup_extend_eq, Hl12; reflexivity].
    change (default [] (Some (sec_lines s12))) with (sec_lines s12).
    rewrite filter_app, filter_sec_lines by done.
    split; [|done]. intros line. rewrite elem_of_app. tauto.
Qed.

(** C3.  Rotation on 2026-02-12 of a log with the sections of 2026-02-12,
    2026-02-11 and 2026-02-10, newest first, and a footer: the archive file
    of 2026-02-10 holds the line of that section twice, where the section
    has it once; the archive file of 2026-02-11 holds the lines of its
    section.  With the same sections oldest first, the archive files hold
    the lines of their sections, and the rewritten log holds the line of
    2026-02-12 twice.  The bucket of the section before the footer is
    flushed when the footer marker is met and once more at the end of the
    loop. *)
Theorem three_day_rotation_repeats_last_section :
  files (rotate_logs Sample.now MoreSamples.newest_first_fs).1
    !! "Logs/2026-02-10.md"
  = Some (archive_preamble Sample.now "2026-02-10" +:+ "- a
- a
")
  ∧ files (rotate_logs Sample.now MoreSamples.newest_first_fs).1
      !! "Logs/2026-02-11.md"
    = Some (archive_preamble Sample.now "2026-02-11" +:+ "- b

")
  ∧ files (rotate_logs Sample.now Sample.three_days_fs).1
      !! "Logs/2026-02-10.md"
    = Some (archive_preamble Sample.now "2026-02-10" +:+ "- a
")
  ∧ files (rotate_logs Sample.now Sample.three_days_fs).1 !! "System_Log.md"
    = Some ("# System Log
" +:+ rotation_status Sample.now 2 +:+ activity_heading +:+ "- c
- c
" +:+ "---

" +:+ "## Notes
n
").
Proof. repeat split; vm_compute; reflexivity. Qed.

(** On [Sample.three_days], which has a footer, the bucket of 2026-02-12
    holds the section twice, and so does the rewritten activity section. *)
Lemma three_days_today_written_twice :
  dict_get (parse_lines (readlines Sample.three_days)).1.2 "2026-02-12"
  = ["### 2026-02-12
"; "- c
"; "### 2026-02-12
"; "- c
"]
  ∧ activity_body
      (dict_get (parse_lines (readlines Sample.three_days)).1.2 "2026-02-12")
    = "- c
- c
".
Proof. split; vm_compute; reflexivity. Qed.

(** ** Parsing a rewritten log *)

(** In the activity state with no dated bucket open, lines that are
    neither markers nor sub-headers are dropped. *)
Lemma run_dropped (lines : list string) ce hl E fl :
  forallb (λ line, plain line && not_subheader line) lines = true →
  run {| current_section := activity; current_date := None;
         current_entry := ce; header_lines := hl; entries_by_date := E;
         footer_lines := fl |} lines
  = {| current_section := activity; current_date := None;
       current_entry := ce; header_lines := hl; entries_by_date := E;
       footer_lines := fl |}.
Proof.
  induction lines as [|line lines IH]; intros Hok; [done|].
  simpl in Hok. apply andb_true_iff in Hok as [Hline Hok].
  apply andb_true_iff in Hline as [Hplain Hsub]. unfold plain in Hplain.
  apply andb_true_iff in Hplain as [Hplain Hn].
  apply andb_true_iff in Hplain as [Ha Ht].
  apply negb_true_iff in Ha, Ht, Hn, Hsub.
  rewrite run_cons. unfold step. simpl. rewrite Ha, Ht, Hn, Hsub. simpl.
  by apply IH.
Qed.

(** The layout that [write_rotated_log] produces parses to an empty
    partition map, whatever lines stand below "### Today's Activity": a
    second rotation finds no bucket for today. *)
Lemma rewritten_layout_has_no_bucket (hdr body ftr : list string) :
  forallb (λ line, negb (contains "## Activity Log" line)) hdr = true →
  forallb (λ line, plain line && not_subheader line) body = true →
  wf_footer ftr = true →
  parse_lines
    (hdr ++ "## Activity Log
" :: "
" :: "### Today's Activity
" :: "
" :: body ++ "---
" :: "
" :: ftr)
  = (hdr, [], ftr).
Proof.
  intros Hhdr Hbody Hftr. unfold parse_lines, parser_init.
  assert (∀ line ce,
            plain line && not_subheader line = true →
            step {| current_section := activity; current_date := None;
                    current_entry := ce; header_lines := hdr;
                    entries_by_date := []; footer_lines := [] |} line
            = {| current_section := activity; current_date := None;
                 current_entry := ce; header_lines := hdr;
                 entries_by_date := []; footer_lines := [] |}) as Hdrop.
  { intros line ce Hline.
    apply (run_dropped [line] ce hdr [] []). simpl. by rewrite Hline. }
  rewrite run_app, run_header by done.
  rewrite run_cons, (step_activity_marker _ "## Activity Log
") by reflexivity.
  cbn [current_date current_entry header_lines entries_by_date footer_lines
       app].
  rewrite run_cons, Hdrop by reflexivity.
  rewrite run_cons.
  change (step _ "### Today's Activity
") with
    {| current_section := activity; current_date := None;
       current_entry := ["### Today's Activity
"];
       header_lines := hdr; entries_by_date := []; footer_lines := [] |}.
  rewrite run_cons, Hdrop by reflexivity.
  rewrite run_app, run_dropped by done.
  rewrite run_cons, Hdrop by reflexivity.
  rewrite run_cons, Hdrop by reflexivity.
  destruct ftr as [|first rest]; [done|].
  simpl in Hftr. apply andb_true_iff in Hftr as [Hfoot Hplain].
  apply andb_true_iff in Hplain as [Hfirst Hplain].
  apply negb_true_iff in Hfirst.
  rewrite run_cons. unfold step. simpl. rewrite Hfirst, Hfoot. simpl.
  by rewrite run_footer by done.
Qed.

(** ** Further properties: the date of a sub-header *)

Lemma contains_unfold (sub s : string) :
  contains sub s
  = String.prefix sub s
    || match s with
       | EmptyString => false
       | String _ s' => contains sub s'
       end.
Proof. by destruct s. Qed.

Lemma contains_prefix (sub s : string) :
  String.prefix sub s = true → contains sub s = true.
Proof. intros H. by rewrite contains_unfold, H. Qed.

Lemma contains_cons (sub : string) (c : ascii) (s : string) :
  contains sub s = true → contains sub (String c s) = true.
Proof. intros H. rewrite contains_unfold, H. apply orb_true_r. Qed.

(** X1.  Whatever [parse_date_from_header] returns has the form
    [dddd-dd-dd], each [d] a decimal digit of any script, and occurs in the
    header line. *)
Theorem parse_date_is_date (header_line d : string) :
  parse_date_from_header header_line = Some d →
  date_shaped d = true ∧ contains d header_line = true.
Proof.
  induction header_line as [|c s IH]; rewrite parse_date_unfold.
  - by destruct (match_date "") eqn:E.
  - destruct (match_date (String c s)) as [d'|] eqn:E.
    + intros [= <-]. apply match_date_inv in E as [Hd Hp].
      split; [done|]. by apply contains_prefix.
    + intros H. destruct (IH H) as [Hd Hc]. split; [done|].
      by apply contains_cons.
Qed.

Lemma parse_date_is_date_witness :
  parse_date_from_header "### ٢٠٢٦-٠٢-١٢ (Thursday)" = Some "٢٠٢٦-٠٢-١٢"
  ∧ date_shaped "٢٠٢٦-٠٢-١٢" = true
  ∧ contains "٢٠٢٦-٠٢-١٢" "### ٢٠٢٦-٠٢-١٢ (Thursday)" = true.
Proof.
  split; [reflexivity|].
  apply (parse_date_is_date "### ٢٠٢٦-٠٢-١٢ (Thursday)" "٢٠٢٦-٠٢-١٢").
  reflexivity.
Defined.

Lemma no_digit_cons (c : ascii) (s : string) :
  no_digit (String c s) = true →
  digit (String c s) = None ∧ no_digit s = true.
Proof. simpl. by destruct (digit (String c s)). Qed.

(** X2.  A date that no decimal digit precedes is the one extracted,
    whatever follows it; no calendar check is made on it.  A line that holds
    no decimal digit, of whatever script, has no date. *)
Theorem parse_date_after_nondigits (before d after : string) :
  (no_digit before = true →
   date_shaped d = true →
   parse_date_from_header (before +:+ d +:+ after) = Some d)
  ∧ (no_digit before = true → parse_date_from_header before = None).
Proof.
  split.
  - intros Hb Hd.
    destruct (date_shaped_first_byte d Hd) as (c' & d' & Heq & Hc').
    apply first_byte_no_continuation in Hc'.
    induction before as [|c s IH].
    + change ("" +:+ d +:+ after) with (d +:+ after).
      rewrite parse_date_unfold. by rewrite match_date_append.
    + apply no_digit_cons in Hb as [Hc Hs].
      rewrite append_cons, parse_date_unfold, match_date_no_digit;
        [by apply IH|].
      rewrite Heq, append_cons. by apply digit_append_none.
  - intros Hb. induction before as [|c s IH]; [done|].
    apply no_digit_cons in Hb as [Hc Hs].
    rewrite parse_date_unfold, match_date_no_digit by done. by apply IH.
Qed.

Lemma parse_date_after_nondigits_witness :
  parse_date_from_header ("### " +:+ "9999-99-99" +:+ " and 2026-02-12")
  = Some "9999-99-99"
  ∧ parse_date_from_header "### Today's Activity" = None.
Proof.
  split.
  - apply (proj1 (parse_date_after_nondigits "### " "9999-99-99"
                    " and 2026-02-12")); reflexivity.
  - apply (proj2 (parse_date_after_nondigits "### Today's Activity" "" ""));
      reflexivity.
Defined.

(** ** Further properties: what the parser keeps *)

Lemma parse_date_shape (header_line d : string) :
  parse_date_from_header header_line = Some d → date_shaped d = true.
Proof.
  induction header_line as [|c s IH]; rewrite parse_date_unfold.
  - by destruct (match_date "") eqn:E.
  - destruct (match_date (String c s)) as [d'|] eqn:E; [|exact IH].
    intros [= <-]. by apply match_date_inv in E as [Hd _].
Qed.

Section ParserInvariant.

Variable Q : string → Prop.

Lemma dict_extend_bucket_ok (E : dict) d ce :
  Forall (bucket_ok Q) E →
  bucket_ok Q (d, ce) →
  Forall (bucket_ok Q) (dict_extend E d ce).
Proof.
  intros HE Hnew. induction HE as [|[k v] E Hk HE IH]; simpl.
  - by constructor.
  - destruct (String.eqb_spec k d) as [->|Hne]; constructor; try done.
    destruct Hk as (Hd & (h & rest & Hv & Hh & Hp) & Hl). simpl in *.
    split; [done|]. split.
    + exists h, (rest ++ ce). subst v. done.
    + apply Forall_app. split; [done|]. by destruct Hnew as (_ & _ & ?).
Qed.

Lemma flush_parser_ok (st : parser) :
  parser_ok Q st →
  NoDup (keys (flush st)) ∧ Forall (bucket_ok Q) (flush st).
Proof.
  intros (Hnd & HE & [Hhead Hce] & _). unfold flush.
  destruct (current_date st) as [d|] eqn:Hcd; [|done].
  destruct (str_truthy d); simpl; [|done].
  destruct (current_entry st) as [|h rest] eqn:Hentry; simpl; [done|].
  split; [by apply dict_extend_keys_nodup|].
  apply dict_extend_bucket_ok; [done|].
  destruct Hhead as [Hh Hp]. split; [by eapply parse_date_shape|].
  split; [|done]. by exists h, rest.
Qed.

Lemma step_parser_ok (st : parser) (line : string) :
  Q line → parser_ok Q st → parser_ok Q (step st line).
Proof.
  intros HQ Hok. pose proof (flush_parser_ok st Hok) as [Hfnd HfE].
  destruct Hok as (Hnd & HE & [Hhead Hce] & Hhl & Hfl).
  unfold step.
  destruct (contains "## Activity Log" line) eqn:Hact; [by repeat split|].
  destruct (is_activity (current_section st)
            && (contains "## Log Entry Template" line
                || contains "## Notes" line)) eqn:Hfoot.
  { repeat split; simpl; try done.
    apply Forall_app. split; [done|]. by repeat constructor. }
  destruct (current_section st) eqn:Hsec.
  - repeat split; simpl; try done.
    apply Forall_app. split; [done|]. by repeat constructor.
  - simpl in Hfoot. apply orb_false_iff in Hfoot as [Ht Hn].
    assert (bucket_line_ok Q line) as Hline.
    { split; [|done]. unfold plain. by rewrite Hact, Ht, Hn. }
    destruct (startswith "###" line) eqn:Hsub.
    + repeat split; simpl; try done. by constructor.
    + destruct (is_some_truthy (current_date st)) eqn:Hcd;
        [|by repeat split].
      repeat split; simpl; try done.
      * destruct (current_entry st) as [|h rest]; [|done].
        rewrite Hhead in Hcd. done.
      * apply Forall_app. split; [done|]. by constructor.
  - repeat split; simpl; try done.
    apply Forall_app. split; [done|]. by repeat constructor.
Qed.

Lemma run_parser_ok (lines : list string) (st : parser) :
  Forall Q lines → parser_ok Q st → parser_ok Q (run st lines).
Proof.
  intros HQ. revert st. induction HQ as [|line lines Hline HQ IH];
    intros st Hok; [done|].
  rewrite run_cons. by apply IH, step_parser_ok.
Qed.

Lemma parser_init_ok : parser_ok Q parser_init.
Proof. repeat split; simpl; constructor. Qed.

End ParserInvariant.

(** X3.  Whatever the text, the parsed partition map has no date twice;
    every bucket is keyed by a string of the form [dddd-dd-dd], each [d] a
    decimal digit of any script, starts with a sub-header line that holds
    that date and has no marker line in it; no
    stored line holds the activity marker; and every stored line is a line
    of the text. *)
Theorem parse_lines_invariants (lines : list string) :
  NoDup (keys (parse_lines lines).1.2)
  ∧ Forall (bucket_ok (λ line, line ∈ lines)) (parse_lines lines).1.2
  ∧ Forall (stored_ok (λ line, line ∈ lines)) (parse_lines lines).1.1
  ∧ Forall (stored_ok (λ line, line ∈ lines)) (parse_lines lines).2.
Proof.
  assert (parser_ok (λ line, line ∈ lines) (run parser_init lines)) as Hok.
  { apply run_parser_ok; [|apply parser_init_ok].
    by apply Forall_forall. }
  destruct (flush_parser_ok _ _ Hok) as [Hnd HE].
  destruct Hok as (_ & _ & _ & Hhl & Hfl).
  unfold parse_lines. simpl. done.
Qed.

(** ** Further properties: a log without the activity marker *)

Lemma archive_nothing now fs today :
  archive_old_entries now fs [] today = (fs, 0).
Proof. reflexivity. Qed.

(** X4.  A log in which no line holds the activity marker is header from
    the first line to the last.  Rotating it archives nothing and rewrites
    it as its own text followed by the status block and an activity section
    with the placeholder. *)
Theorem rotation_without_marker (now : datetime) (fs : filesystem)
  (content : string) :
  read_file fs SYSTEM_LOG_PATH = Ok content →
  forallb (λ line, negb (contains "## Activity Log" line)) (readlines content)
  = true →
  SYSTEM_LOG_PATH ∉ unwritable fs →
  parse_lines (readlines content) = (readlines content, [], [])
  ∧ (rotate_logs now fs).2 = Complete 0 false (create_backup now fs).2
  ∧ files (rotate_logs now fs).1 !! SYSTEM_LOG_PATH
    = Some (content
            +:+ rotation_status now 0
            +:+ activity_heading
            +:+ "*No activity logged today.*

"
            +:+ "---

").
Proof.
  intros Hread Hplain Hw.
  assert (parse_lines (readlines content) = (readlines content, [], []))
    as Hparse.
  { unfold parse_lines, parser_init. by rewrite run_header. }
  split; [done|].
  assert (read_system_log (create_backup now fs).1
          = Some (readlines content, [], [])) as Hrs.
  { unfold read_system_log. by rewrite read_after_backup, Hread, Hparse. }
  rewrite (rotate_logs_parsed _ _ _ _ _ Hrs). simpl. split; [done|].
  rewrite write_rotated_log_written.
  - unfold rotated_content. simpl activity_body.
    rewrite writelines_readlines. change (writelines []) with "".
    by rewrite append_empty_r.
  - by destruct (create_backup_flags now fs) as [-> _].
Qed.

Lemma rotation_without_marker_witness :
  files (rotate_logs Sample.now
           (Sample.no_failures {[ "System_Log.md" := "# Notes to self
" ]})).1 !! SYSTEM_LOG_PATH
  = Some ("# Notes to self
"
          +:+ rotation_status Sample.now 0
          +:+ activity_heading
          +:+ "*No activity logged today.*

"
          +:+ "---

").
Proof.
  apply (rotation_without_marker Sample.now
           (Sample.no_failures {[ "System_Log.md" := "# Notes to self
" ]}) "# Notes to self
").
  - reflexivity.
  - reflexivity.
  - apply not_elem_of_empty.
Defined.

(** ** Further properties: the parse of any log with one activity marker *)

Lemma wf_block_inv (b : block) :
  wf_block b = true →
  contains "## Activity Log" (blk_head b) = false
  ∧ contains "## Log Entry Template" (blk_head b) = false
  ∧ contains "## Notes" (blk_head b) = false
  ∧ startswith "###" (blk_head b) = true
  ∧ forallb (λ line, plain line && not_subheader line) (blk_body b) = true.
Proof.
  unfold wf_block, plain. intros Hwf.
  apply andb_true_iff in Hwf as [Hwf Hbody].
  apply andb_true_iff in Hwf as [Hsub Hplain].
  apply andb_true_iff in Hplain as [Hplain Hn].
  apply andb_true_iff in Hplain as [Ha Ht].
  by apply negb_true_iff in Ha, Ht, Hn.
Qed.

(** In the activity state, a block closes the bucket that was open; it
    opens its own when its sub-header holds a date, and otherwise its lines
    are dropped. *)
Lemma run_block (b : block) (st : parser) :
  current_section st = activity →
  wf_block b = true →
  run st (blk_lines b)
  = {| current_section := activity; current_date := blk_date b;
       current_entry := match blk_date b with
                        | Some _ => blk_lines b
                        | None => [blk_head b]
                        end;
       header_lines := header_lines st;
       entries_by_date := flush st; footer_lines := footer_lines st |}.
Proof.
  intros Hact (Ha & Ht & Hn & Hsub & Hbody)%wf_block_inv.
  unfold blk_lines. rewrite run_cons. unfold step.
  rewrite Ha, Hact, Ht, Hn, Hsub. simpl. unfold blk_date.
  destruct (parse_date_from_header (blk_head b)) as [d|] eqn:Hd.
  - rewrite run_body; [done| |done]. by eapply parse_date_truthy.
  - by rewrite run_dropped.
Qed.

Lemma flush_after_block (b : block) sec hl E fl :
  flush {| current_section := sec; current_date := blk_date b;
           current_entry := match blk_date b with
                            | Some _ => blk_lines b
                            | None => [blk_head b]
                            end;
           header_lines := hl; entries_by_date := E; footer_lines := fl |}
  = add_block E b.
Proof.
  unfold flush, add_block, blk_date. simpl.
  destruct (parse_date_from_header (blk_head b)) as [d|] eqn:Hd; [|done].
  by rewrite (parse_date_truthy _ _ Hd).
Qed.

Lemma run_blocks (blocks : list block) (st : parser) :
  current_section st = activity →
  forallb wf_block blocks = true →
  current_section (run st (concat (map blk_lines blocks))) = activity
  ∧ header_lines (run st (concat (map blk_lines blocks))) = header_lines st
  ∧ footer_lines (run st (concat (map blk_lines blocks))) = footer_lines st
  ∧ flush (run st (concat (map blk_lines blocks)))
    = fold_left add_block blocks (flush st)
  ∧ reflush (run st (concat (map blk_lines blocks)))
    = match last blocks with
      | Some b => add_block (fold_left add_block blocks (flush st)) b
      | None => reflush st
      end.
Proof.
  revert st. induction blocks as [|b rest IH]; intros st Hact Hwf; [done|].
  simpl in Hwf. apply andb_true_iff in Hwf as [Hb Hrest].
  change (concat (map blk_lines (b :: rest)))
    with (blk_lines b ++ concat (map blk_lines rest)).
  rewrite run_app, (run_block b st Hact Hb).
  set (st1 := {| current_section := activity; current_date := blk_date b;
                 current_entry := match blk_date b with
                                  | Some _ => blk_lines b
                                  | None => [blk_head b]
                                  end;
                 header_lines := header_lines st;
                 entries_by_date := flush st;
                 footer_lines := footer_lines st |}).
  assert (flush st1 = add_block (flush st) b) as Hflush1
    by apply flush_after_block.
  destruct (IH st1) as (Ha & Hh & Hf & Hfl & Hre); [done..|].
  split; [done|]. split; [done|]. split; [done|]. split.
  - by rewrite Hfl, Hflush1.
  - rewrite Hre, last_cons, Hflush1.
    destruct (last rest) as [b'|] eqn:Hlast; [done|].
    apply last_None in Hlast. subst rest. simpl.
    unfold reflush. rewrite Hflush1. apply flush_after_block.
Qed.

(** What the parser returns for a log with one activity marker. *)
Lemma parse_layout hdr marker stray blocks ftr :
  wf_layout hdr marker stray blocks ftr = true →
  parse_lines (layout hdr marker stray blocks ftr)
  = (hdr, parsed_layout blocks ftr, ftr).
Proof.
  intros Hwf. unfold wf_layout in Hwf.
  apply andb_true_iff in Hwf as [Hwf Hftr].
  apply andb_true_iff in Hwf as [Hwf Hblocks].
  apply andb_true_iff in Hwf as [Hwf Hstray].
  apply andb_true_iff in Hwf as [Hhdr Hmarker].
  unfold parse_lines, layout, parser_init.
  rewrite run_app, run_header by done.
  rewrite run_cons, step_activity_marker by done.
  cbn [current_date current_entry header_lines entries_by_date footer_lines
       app].
  rewrite run_app, run_dropped by done. rewrite run_app.
  set (st0 := {| current_section := activity; current_date := None;
                 current_entry := []; header_lines := hdr;
                 entries_by_date := []; footer_lines := [] |}).
  destruct (run_blocks blocks st0) as (Ha & Hh & Hf & Hfl & Hre); [done..|].
  set (st' := run st0 (concat (map blk_lines blocks))) in *.
  unfold parsed_layout, collect. destruct ftr as [|first rest].
  - simpl. rewrite Hh, Hfl, Hf. by destruct (last blocks).
  - simpl in Hftr. apply andb_true_iff in Hftr as [Hfoot Hplain].
    apply andb_true_iff in Hplain as [Hfirst Hplain].
    apply negb_true_iff in Hfirst.
    rewrite run_cons. unfold step. rewrite Hfirst, Ha, Hfoot. simpl.
    rewrite run_footer by done. simpl. rewrite Hh, Hf. f_equal. f_equal.
    change (reflush st' = match last blocks with
                          | Some b => add_block (fold_left add_block blocks []) b
                          | None => fold_left add_block blocks []
                          end).
    rewrite Hre. destruct (last blocks) as [b|] eqn:Hlast; [done|].
    apply last_None in Hlast. by subst blocks.
Qed.

Lemma dict_get_extend_eq (E : dict) k v :
  dict_get (dict_extend E k v) k = dict_get E k ++ v.
Proof.
  unfold dict_get. rewrite dict_lookup_extend_eq.
  by destruct (dict_lookup E k).
Qed.

Lemma dict_get_extend_ne (E : dict) k v k0 :
  k ≠ k0 → dict_get (dict_extend E k v) k0 = dict_get E k0.
Proof. intros Hne. unfold dict_get. by rewrite dict_lookup_extend_ne. Qed.

Lemma keys_extend (E : dict) k v k0 :
  k0 ∈ keys (dict_extend E k v) ↔ k0 ∈ keys E ∨ k0 = k.
Proof.
  destruct (decide (k ∈ keys E)) as [Hin|Hnotin].
  - rewrite dict_extend_keys_present by done.
    split; [by left|]. by intros [?| ->].
  - rewrite dict_extend_fresh by done. unfold keys. rewrite map_app. simpl.
    by rewrite elem_of_app, list_elem_of_singleton.
Qed.

Lemma dict_get_add_block (E : dict) (b : block) d :
  dict_get (add_block E b) d
  = dict_get E d ++ (if decide (blk_date b = Some d) then blk_lines b else []).
Proof.
  unfold add_block. destruct (blk_date b) as [d'|].
  - destruct (decide (Some d' = Some d)) as [[= ->]|Hne].
    + apply dict_get_extend_eq.
    + rewrite dict_get_extend_ne by congruence. by rewrite app_nil_r.
  - rewrite decide_False by done. by rewrite app_nil_r.
Qed.

Lemma dict_get_collect (blocks : list block) (E : dict) d :
  dict_get (fold_left add_block blocks E) d
  = dict_get E d ++ lines_dated d blocks.
Proof.
  revert E. induction blocks as [|b rest IH]; intros E.
  - simpl. by rewrite app_nil_r.
  - simpl. rewrite IH, dict_get_add_block. unfold lines_dated.
    rewrite filter_cons. destruct (decide (blk_date b = Some d)); simpl.
    + by rewrite <- app_assoc.
    + by rewrite app_nil_r.
Qed.

Lemma keys_add_block (E : dict) (b : block) d :
  d ∈ keys (add_block E b) ↔ d ∈ keys E ∨ blk_date b = Some d.
Proof.
  unfold add_block. destruct (blk_date b) as [d'|].
  - rewrite keys_extend. split; (intros [?|?]; [by left|right; congruence]).
  - split; [by left|]. by intros [?|?].
Qed.

Lemma keys_collect (blocks : list block) (E : dict) d :
  d ∈ keys (fold_left add_block blocks E)
  ↔ d ∈ keys E ∨ ∃ b, b ∈ blocks ∧ blk_date b = Some d.
Proof.
  revert E. induction blocks as [|b rest IH]; intros E; simpl.
  - split; [by left|]. intros [?|(b & Hb & _)]; [done|].
    by apply elem_of_nil in Hb.
  - rewrite IH, keys_add_block. split.
    + intros [[?|Hb]|(b' & Hin & Hb')]; [by left| |].
      * right. exists b. split; [by left|done].
      * right. exists b'. split; [by right|done].
    + intros [?|(b' & Hin & Hb')]; [by left; left|].
      apply elem_of_cons in Hin as [->|Hin]; [by left; right|].
      right. by exists b'.
Qed.

(** X5.  For a log made of header lines without the activity marker, the
    activity-marker line, lines before the first sub-header, blocks (a
    sub-header line, dated or not, and the lines below it) and a footer:
    header and footer come back verbatim; the dates of the partition map are
    the dates of the dated blocks; the bucket of a date holds the lines of
    all blocks of this date in document order, so that sections of one date
    are merged; with a footer, the lines of the last block are in its bucket
    a second time.  The lines before the first sub-header and the blocks
    without a date are in no part. *)
Theorem parse_of_layout (hdr : list string) (marker : string)
  (stray : list string) (blocks : list block) (ftr : list string) :
  wf_layout hdr marker stray blocks ftr = true →
  (parse_lines (layout hdr marker stray blocks ftr)).1.1 = hdr
  ∧ (parse_lines (layout hdr marker stray blocks ftr)).2 = ftr
  ∧ (∀ d : string,
       d ∈ keys (parse_lines (layout hdr marker stray blocks ftr)).1.2
       ↔ ∃ b : block, b ∈ blocks ∧ blk_date b = Some d)
  ∧ (∀ d : string,
       dict_get (parse_lines (layout hdr marker stray blocks ftr)).1.2 d
       = lines_dated d blocks ++ flushed_again d blocks ftr).
Proof.
  intros Hwf. rewrite parse_layout by done. simpl.
  split; [done|]. split; [done|]. unfold parsed_layout, flushed_again, collect.
  split; intros d.
  - assert (d ∈ keys (fold_left add_block blocks [])
            ↔ ∃ b, b ∈ blocks ∧ blk_date b = Some d) as Hkeys.
    { rewrite keys_collect. split; [|by right].
      intros [Hin|?]; [by apply elem_of_nil in Hin|done]. }
    destruct ftr as [|first rest]; [by destruct (last blocks)|].
    destruct (last blocks) as [b|] eqn:Hlast; [|done].
    rewrite keys_add_block, Hkeys. split; [|by left].
    intros [?|Hb]; [done|]. exists b. split; [|done].
    by apply last_elem.
  - destruct ftr as [|first rest].
    + rewrite app_nil_r. destruct (last blocks); apply dict_get_collect.
    + destruct (last blocks) as [b|].
      * by rewrite dict_get_add_block, dict_get_collect.
      * rewrite app_nil_r. apply dict_get_collect.
Qed.

Lemma parse_of_layout_witness :
  wf_layout ["# System Log
"] "## Activity Log
" ["stray
"] MoreSamples.mixed_blocks ["## Notes
"] = true
  ∧ parse_lines MoreSamples.mixed_log
    = (["# System Log
"],
       [("2026-02-10",
         ["### 2026-02-10
"; "- a
"; "### 2026-02-10 (evening)
"; "- b
"; "### 2026-02-10 (evening)
"; "- b
"])],
       ["## Notes
"])
  ∧ dict_get (parse_lines MoreSamples.mixed_log).1.2 "2026-02-10"
    = lines_dated "2026-02-10" MoreSamples.mixed_blocks
      ++ flushed_again "2026-02-10" MoreSamples.mixed_blocks ["## Notes
"].
Proof.
  split; [vm_compute; reflexivity|]. split; [vm_compute; reflexivity|].
  apply (parse_of_layout ["# System Log
"] "## Activity Log
" ["stray
"] MoreSamples.mixed_blocks ["## Notes
"]).
  vm_compute. reflexivity.
Defined.

(** ** Further properties: what a rotation writes *)

Lemma keeps_files_refl fs : keeps_files fs fs.
Proof. by intros p. Qed.

Lemma keeps_files_trans fs1 fs2 fs3 :
  keeps_files fs1 fs2 → keeps_files fs2 fs3 → keeps_files fs1 fs3.
Proof. intros H12 H23 p Hp. by apply H23, H12. Qed.

Lemma write_file_keeps fs path content fs' :
  write_file fs path content = Ok fs' → keeps_files fs fs'.
Proof.
  intros (_ & Hfiles & _)%exists_after_write p Hp. rewrite Hfiles.
  apply lookup_insert_is_Some. destruct (decide (path = p)); auto.
Qed.

Lemma create_backup_keeps now fs : keeps_files fs (create_backup now fs).1.
Proof.
  unfold create_backup.
  destruct (read_file fs SYSTEM_LOG_PATH); [|apply keeps_files_refl].
  destruct (write_file fs _ _) eqn:Hw; [|apply keeps_files_refl].
  by eapply write_file_keeps.
Qed.

Lemma archive_entry_keeps now today acc item :
  keeps_files acc.1 (archive_entry now today acc item).1.
Proof.
  destruct acc as [fs n], item as [d v]. simpl.
  destruct (is_old today d); [|apply keeps_files_refl].
  destruct (write_file fs _ _) eqn:Hw; [|apply keeps_files_refl].
  by eapply write_file_keeps.
Qed.

Lemma archive_fold_keeps now today (E : dict) acc :
  keeps_files acc.1 (fold_left (archive_entry now today) E acc).1.
Proof.
  revert acc. induction E as [|item E IH]; intros acc;
    [apply keeps_files_refl|].
  simpl. eapply keeps_files_trans; [apply archive_entry_keeps|apply IH].
Qed.

Lemma write_rotated_log_keeps now fs hl today_entries fl n :
  keeps_files fs (write_rotated_log now fs hl today_entries fl n).
Proof.
  unfold write_rotated_log.
  destruct (write_file fs _ _) eqn:Hw; [|apply keeps_files_refl].
  by eapply write_file_keeps.
Qed.

Lemma write_rotated_log_flags now fs hl today_entries fl n :
  unwritable (write_rotated_log now fs hl today_entries fl n) = unwritable fs
  ∧ unreadable (write_rotated_log now fs hl today_entries fl n)
    = unreadable fs.
Proof.
  unfold write_rotated_log.
  destruct (write_file fs _ _) eqn:Hw; [|done].
  by apply exists_after_write in Hw as (_ & _ & ? & ?).
Qed.

Lemma rotate_parsed_keeps now fs hl E fl today :
  keeps_files fs (rotate_parsed now fs hl E fl today).1.
Proof.
  unfold rotate_parsed.
  pose proof (archive_fold_keeps now today E (fs, 0)) as Hk.
  unfold archive_old_entries.
  destruct (fold_left (archive_entry now today) E (fs, 0)) as [fs2 n].
  simpl in *. eapply keeps_files_trans; [exact Hk|].
  apply write_rotated_log_keeps.
Qed.

Lemma rotate_parsed_other now fs hl E fl today p :
  p ≠ SYSTEM_LOG_PATH →
  (∀ d, p ≠ archive_path d) →
  files (rotate_parsed now fs hl E fl today).1 !! p = files fs !! p.
Proof.
  intros Hlog Harch. rewrite rotate_parsed_archive by done.
  unfold archive_old_entries. rewrite archive_fold_other; [done|].
  intros [d v] _ _ Heq. by apply (Harch d).
Qed.

Lemma rotate_parsed_flags now fs hl E fl today :
  unwritable (rotate_parsed now fs hl E fl today).1 = unwritable fs
  ∧ unreadable (rotate_parsed now fs hl E fl today).1 = unreadable fs.
Proof.
  unfold rotate_parsed.
  pose proof (archive_fold_unwritable now today E (fs, 0)) as Hw.
  pose proof (archive_fold_unreadable now today E (fs, 0)) as Hr.
  unfold archive_old_entries.
  destruct (fold_left (archive_entry now today) E (fs, 0)) as [fs2 n].
  simpl in *.
  destruct (write_rotated_log_flags now fs2 hl (dict_get E today) fl n)
    as [-> ->]. done.
Qed.

(** [rotate_logs] is the backup followed, when the log can be read, by
    [rotate_parsed] on its parse. *)
Lemma rotate_logs_cases now fs :
  (rotate_logs now fs).1 = (create_backup now fs).1
  ∨ ∃ hl E fl,
      read_system_log (create_backup now fs).1 = Some (hl, E, fl)
      ∧ (rotate_logs now fs).1
        = (rotate_parsed now (create_backup now fs).1 hl E fl
             (get_today_date now)).1.
Proof.
  destruct (read_system_log (create_backup now fs).1) as [[[hl E] fl]|] eqn:Hrs.
  - right. exists hl, E, fl. split; [done|].
    by rewrite (rotate_logs_parsed _ _ _ _ _ Hrs).
  - left. unfold rotate_logs.
    destruct (create_backup now fs) as [fs1 b]. simpl in *. by rewrite Hrs.
Qed.

(** X6.  A rotation run deletes no file, changes no file other than the
    backup of this run, the archive files [Logs/<date>.md] and
    [System_Log.md], and leaves the access rights as they are. *)
Theorem rotation_touches_only_its_files (now : datetime) (fs : filesystem) :
  keeps_files fs (rotate_logs now fs).1
  ∧ (∀ p : string,
       p ≠ backup_path now →
       p ≠ SYSTEM_LOG_PATH →
       (∀ d : string, p ≠ archive_path d) →
       files (rotate_logs now fs).1 !! p = files fs !! p)
  ∧ unwritable (rotate_logs now fs).1 = unwritable fs
  ∧ unreadable (rotate_logs now fs).1 = unreadable fs.
Proof.
  destruct (create_backup_flags now fs) as [Hbw Hbr].
  destruct (rotate_logs_cases now fs) as [->|(hl & E & fl & _ & ->)].
  - split; [apply create_backup_keeps|]. split; [|done].
    intros p Hb _ _. by apply create_backup_other.
  - split; [|split].
    + eapply keeps_files_trans;
        [apply create_backup_keeps|apply rotate_parsed_keeps].
    + intros p Hb Hlog Harch.
      rewrite rotate_parsed_other by done. by apply create_backup_other.
    + destruct (rotate_parsed_flags now (create_backup now fs).1 hl E fl
                  (get_today_date now)) as [-> ->]. done.
Qed.

Lemma rotation_touches_only_its_files_witness :
  files (rotate_logs Sample.now Sample.three_days_fs).1 !! "Dashboard.md"
  = files Sample.three_days_fs !! "Dashboard.md".
Proof.
  destruct (rotation_touches_only_its_files Sample.now Sample.three_days_fs)
    as (_ & H & _).
  apply H; [discriminate|discriminate|intros d; discriminate].
Defined.

(** ** Further properties: the backup *)

(** The archive file of a date is never the backup file. *)
Lemma archive_path_not_backup now (d : string) :
  date_shaped d = true → archive_path d ≠ backup_path now.
Proof.
  intros (c & d' & -> & Hc)%date_shaped_first_byte Heq.
  unfold archive_path, backup_path, join, LOGS_FOLDER, BACKUP_FOLDER, join,
    LOGS_FOLDER in Heq.
  rewrite !append_cons in Heq. injection Heq as Heq _. subst c.
  by destruct Hc as [Hc|Hc].
Qed.

Lemma parsed_keys_dates (lines : list string) :
  Forall (λ item, date_shaped item.1 = true) (parse_lines lines).1.2.
Proof.
  assert (parser_ok (λ _, True) (run parser_init lines)) as Hok.
  { apply run_parser_ok; [|apply parser_init_ok]. by apply Forall_forall. }
  destruct (flush_parser_ok _ _ Hok) as [_ HE].
  unfold parse_lines. simpl. eapply Forall_impl; [exact HE|].
  by intros item (? & _).
Qed.

(** X7.  When the log can be read and the backup file can be written, the
    backup file holds the text the log had before the run, also after the
    archives and the rewritten log are written, and the run reports its
    path. *)
Theorem backup_keeps_original (now : datetime) (fs : filesystem)
  (content : string) :
  read_file fs SYSTEM_LOG_PATH = Ok content →
  backup_path now ∉ unwritable fs →
  files (rotate_logs now fs).1 !! backup_path now = Some content
  ∧ ∃ (n : nat) (today_present : bool),
      (rotate_logs now fs).2
      = Complete n today_present (Some (backup_path now)).
Proof.
  intros Hread Hw.
  assert (create_backup now fs
          = (set_files fs (<[backup_path now := content]> (files fs)),
             Some (backup_path now))) as Hb.
  { unfold create_backup, write_file. rewrite Hread.
    by rewrite bool_decide_eq_false_2. }
  destruct (parse_lines (readlines content)) as [[hl E] fl] eqn:Hparse.
  assert (read_system_log (create_backup now fs).1 = Some (hl, E, fl)) as Hrs.
  { unfold read_system_log. by rewrite read_after_backup, Hread, Hparse. }
  rewrite (rotate_logs_parsed _ _ _ _ _ Hrs). simpl.
  split; [|eexists _, _; by rewrite Hb].
  pose proof (parsed_keys_dates (readlines content)) as Hdates.
  rewrite Hparse in Hdates. simpl in Hdates.
  rewrite rotate_parsed_archive by apply backup_path_not_log.
  unfold archive_old_entries. rewrite archive_fold_other.
  - rewrite Hb. simpl. by rewrite lookup_insert_eq.
  - intros item Hin _. rewrite Forall_forall in Hdates.
    by apply archive_path_not_backup, Hdates.
Qed.

Lemma backup_keeps_original_witness :
  files (rotate_logs Sample.now Sample.three_days_fs).1
    !! backup_path Sample.now
  = Some Sample.three_days.
Proof.
  apply (backup_keeps_original Sample.now Sample.three_days_fs
           Sample.three_days).
  - reflexivity.
  - apply not_elem_of_empty.
Defined.

(** X8.  A backup that cannot be written does not stop the run: the log is
    parsed, archived and rewritten on the file system as it was, and the run
    reports no backup. *)
Theorem rotation_without_backup (now : datetime) (fs : filesystem)
  (content : string) (hl : list string) (E : dict) (fl : list string) :
  read_file fs SYSTEM_LOG_PATH = Ok content →
  backup_path now ∈ unwritable fs →
  parse_lines (readlines content) = (hl, E, fl) →
  rotate_logs now fs
  = ((rotate_parsed now fs hl E fl (get_today_date now)).1,
     Complete (rotate_parsed now fs hl E fl (get_today_date now)).2
       (list_truthy (dict_get E (get_today_date now))) None).
Proof.
  intros Hread Hw Hparse.
  assert (create_backup now fs = (fs, None)) as Hb.
  { unfold create_backup, write_file. rewrite Hread.
    by rewrite bool_decide_eq_true_2. }
  assert (read_system_log (create_backup now fs).1 = Some (hl, E, fl)) as Hrs.
  { unfold read_system_log. by rewrite read_after_backup, Hread, Hparse. }
  rewrite (rotate_logs_parsed _ _ _ _ _ Hrs). by rewrite Hb.
Qed.

Lemma rotation_without_backup_witness :
  (rotate_logs Sample.now MoreSamples.read_only_log_fs).2
  = Complete 2 true None.
Proof.
  rewrite (rotation_without_backup Sample.now MoreSamples.read_only_log_fs
             Sample.three_days
             (parse_lines (readlines Sample.three_days)).1.1
             (parse_lines (readlines Sample.three_days)).1.2
             (parse_lines (readlines Sample.three_days)).2).
  - vm_compute. reflexivity.
  - reflexivity.
  - vm_compute. set_solver.
  - reflexivity.
Defined.

(** ** Further properties: archive files *)

Lemma write_same fs path content :
  files fs !! path = Some content →
  path ∉ unwritable fs →
  write_file fs path content = Ok fs.
Proof.
  intros Hl Hw. unfold write_file. rewrite bool_decide_eq_false_2 by done.
  f_equal. destruct fs as [m r w]. unfold set_files. simpl in *.
  by rewrite insert_id.
Qed.

Lemma dict_lookup_of_elem (E : dict) d lines :
  NoDup (keys E) → (d, lines) ∈ E → dict_lookup E d = Some lines.
Proof.
  induction E as [|[k v] E IH]; intros Hnd Hin; [by apply elem_of_nil in Hin|].
  simpl in Hnd. apply NoDup_cons in Hnd as [Hk Hnd].
  apply elem_of_cons in Hin as [[= -> ->]|Hin]; simpl.
  - by rewrite String.eqb_refl.
  - destruct (String.eqb_spec k d) as [->|Hne]; [|by apply IH].
    destruct Hk. unfold keys. apply list_elem_of_fmap. by exists (d, lines).
Qed.

(** Archiving over archive files that are already there changes nothing. *)
Lemma archive_fold_fixed now today (E : dict) fs n :
  (∀ d lines, (d, lines) ∈ E →
     is_old today d = true →
     archive_path d ∉ unwritable fs →
     files fs !! archive_path d = Some (archive_content now d lines)) →
  (fold_left (archive_entry now today) E (fs, n)).1 = fs.
Proof.
  revert n. induction E as [|[d lines] E IH]; intros n Hdone; [done|].
  simpl. destruct (is_old today d) eqn:Hold.
  - destruct (decide (archive_path d ∈ unwritable fs)) as [Hw|Hw].
    + unfold write_file. rewrite bool_decide_eq_true_2 by done.
      apply IH. intros. apply Hdone; [by right|done..].
    + rewrite write_same; [|by apply Hdone; [left|..]|done].
      apply IH. intros. apply Hdone; [by right|done..].
  - apply IH. intros. apply Hdone; [by right|done..].
Qed.

(** X9.  Archiving is idempotent: running the archive step again on the
    same partition map, at the same date, leaves every archive file as the
    first run wrote it and counts the same dates. *)
Theorem archive_twice (now : datetime) (fs : filesystem) (E : dict)
  (today : string) :
  NoDup (keys E) →
  archive_old_entries now (archive_old_entries now fs E today).1 E today
  = archive_old_entries now fs E today.
Proof.
  intros Hnd. unfold archive_old_entries.
  pose proof (archive_fold_unwritable now today E (fs, 0)) as Hu.
  pose proof (archive_fold_count now today E (fs, 0)) as Hc1.
  set (fs1 := (fold_left (archive_entry now today) E (fs, 0)).1) in *.
  pose proof (archive_fold_count now today E (fs1, 0)) as Hc2.
  assert ((fold_left (archive_entry now today) E (fs1, 0)).1 = fs1) as Hfix.
  { apply archive_fold_fixed. intros d lines Hin Hold Hw.
    apply (archive_fold_written now today E (fs, 0)); [done| |done|].
    - by apply dict_lookup_of_elem.
    - by rewrite <- Hu. }
  simpl in Hc1, Hc2, Hu. rewrite Hu in Hc2.
  destruct (fold_left (archive_entry now today) E (fs1, 0)) as [fs2 n2].
  destruct (fold_left (archive_entry now today) E (fs, 0)) as [fs1' n1] eqn:H1.
  simpl in *. subst fs1 fs2. f_equal. congruence.
Qed.

Lemma archive_twice_witness :
  archive_old_entries Sample.now
    (archive_old_entries Sample.now (Sample.no_failures ∅)
       Sample.past_today_future "2026-02-12").1
    Sample.past_today_future "2026-02-12"
  = archive_old_entries Sample.now (Sample.no_failures ∅)
      Sample.past_today_future "2026-02-12".
Proof.
  apply (archive_twice Sample.now (Sample.no_failures ∅)
           Sample.past_today_future "2026-02-12").
  apply (bool_decide_unpack _). vm_compute. exact I.
Defined.

Lemma archive_fold_locked now today d (E : dict) fs n :
  archive_path d ∈ unwritable fs →
  fold_left (archive_entry now today) (dict_remove d E) (fs, n)
  = fold_left (archive_entry now today) E (fs, n).
Proof.
  revert fs n. induction E as [|[k v] E IH]; intros fs n Hw; [done|].
  unfold dict_remove in *. rewrite filter_cons. simpl.
  destruct (decide (k ≠ d)) as [Hk|Hk]; simpl.
  - destruct (is_old today k); [|by apply IH].
    destruct (write_file fs _ _) as [fs'|] eqn:Hwr; [|by apply IH].
    apply IH. by apply exists_after_write in Hwr as (_ & _ & -> & _).
  - apply dec_stable in Hk. subst k.
    destruct (is_old today d); [|by apply IH].
    unfold write_file. rewrite bool_decide_eq_true_2 by done. by apply IH.
Qed.

(** X10.  A date whose archive file cannot be written is lost without a
    trace: unless it is today's, the run leaves the file system and reports
    the count that it would for the partition map without that bucket. *)
Theorem unwritable_archive_drops_bucket (now : datetime) (fs : filesystem)
  (hl : list string) (E : dict) (fl : list string) (today d : string) :
  archive_path d ∈ unwritable fs →
  d ≠ today →
  rotate_parsed now fs hl E fl today
  = rotate_parsed now fs hl (dict_remove d E) fl today.
Proof.
  intros Hw Hne. unfold rotate_parsed, archive_old_entries, dict_get.
  rewrite (dict_lookup_remove_ne E d today Hne).
  by rewrite archive_fold_locked.
Qed.

Lemma unwritable_archive_drops_bucket_witness :
  rotate_parsed Sample.now MoreSamples.locked_archive_fs [] Sample.past_today_future
    [] "2026-02-12"
  = rotate_parsed Sample.now MoreSamples.locked_archive_fs []
      (dict_remove "2026-02-11" Sample.past_today_future) [] "2026-02-12".
Proof.
  apply (unwritable_archive_drops_bucket Sample.now
           MoreSamples.locked_archive_fs [] Sample.past_today_future []
           "2026-02-12" "2026-02-11").
  - vm_compute. set_solver.
  - discriminate.
Defined.

(** X11.  When [System_Log.md] can be read but not written, the run still
    completes: the log keeps its text, and every old date is archived all
    the same. *)
Theorem rewrite_failure_keeps_log (now : datetime) (fs : filesystem)
  (content : string) :
  read_file fs SYSTEM_LOG_PATH = Ok content →
  SYSTEM_LOG_PATH ∈ unwritable fs →
  files (rotate_logs now fs).1 !! SYSTEM_LOG_PATH = Some content
  ∧ (∃ (n : nat) (today_present : bool) (backup : option string),
       (rotate_logs now fs).2 = Complete n today_present backup)
  ∧ ∀ d : string,
      is_old (get_today_date now) d = true →
      d ∈ keys (parse_lines (readlines content)).1.2 →
      archive_path d ∉ unwritable fs →
      files (rotate_logs now fs).1 !! archive_path d
      = Some (archive_content now d
                (dict_get (parse_lines (readlines content)).1.2 d)).
Proof.
  intros Hread Hw.
  destruct (parse_lines (readlines content)) as [[hl E] fl] eqn:Hparse.
  assert (read_system_log (create_backup now fs).1 = Some (hl, E, fl)) as Hrs.
  { unfold read_system_log. by rewrite read_after_backup, Hread, Hparse. }
  rewrite (rotate_logs_parsed _ _ _ _ _ Hrs). simpl.
  destruct (create_backup_flags now fs) as [Hbw _].
  pose proof (parse_lines_ok (readlines content)) as Hok.
  rewrite Hparse in Hok. simpl in Hok.
  split; [|split; [by eexists _, _, _|]].
  - unfold rotate_parsed.
    pose proof (archive_fold_unwritable now (get_today_date now) E
                  ((create_backup now fs).1, 0)) as Hu.
    pose proof (archive_fold_other now (get_today_date now) E
                  ((create_backup now fs).1, 0) SYSTEM_LOG_PATH) as Ho.
    unfold archive_old_entries.
    destruct (fold_left _ E _) as [fs2 n]. simpl in *.
    unfold write_rotated_log, write_file.
    rewrite bool_decide_eq_true_2 by (by rewrite Hu, Hbw).
    rewrite Ho.
    + rewrite create_backup_other by (symmetry; apply backup_path_not_log).
      unfold read_file in Hread. case_bool_decide; [done|].
      by destruct (files fs !! SYSTEM_LOG_PATH) as [c|]; simplify_eq.
    + intros item _ _. apply archive_path_not_log.
  - intros d Hold Hin Hwd.
    destruct (bucket_present E d Hok Hin) as [Hl _].
    apply rotate_parsed_old; [by destruct Hok|done..|by rewrite Hbw].
Qed.

Lemma rewrite_failure_keeps_log_witness :
  files (rotate_logs Sample.now MoreSamples.read_only_log_fs).1
    !! SYSTEM_LOG_PATH
  = Some Sample.three_days.
Proof.
  apply (rewrite_failure_keeps_log Sample.now MoreSamples.read_only_log_fs
           Sample.three_days).
  - vm_compute. reflexivity.
  - vm_compute. set_solver.
Defined.

(** ** Further properties: the task emitter *)

Section EmitterFacts.

Variable size : nat → string.

Lemma create_task_file_cases now fs filename :
  (files fs !! task_path filename ≠ None
   ∧ create_task_file size now fs filename
     = (fs, false,
        [(WARNING, "Task already exists: " +:+ task_filename filename)]))
  ∨ (files fs !! task_path filename = None
     ∧ task_path filename ∈ unwritable fs
     ∧ (create_task_file size now fs filename).1 = (fs, false))
  ∨ (files fs !! task_path filename = None
     ∧ (task_path filename ∉ unwritable fs)
     ∧ (create_task_file size now fs filename).1
       = (set_files fs
            (<[task_path filename :=
                 task_content filename (source_size size fs filename).1
                   (source_size size fs filename).2
                   (get_current_timestamp now)]> (files fs)),
          true)).
Proof.
  unfold create_task_file, exists_, source_size.
  destruct (files fs !! task_path filename) as [c|] eqn:Hl.
  - left. split; [done|]. rewrite bool_decide_eq_true_2; [done|by eexists].
  - right. rewrite bool_decide_eq_false_2 by (by intros [? ?]).
    unfold write_file.
    destruct (decide (task_path filename ∈ unwritable fs)) as [Hw|Hw].
    + left. split; [done|]. split; [done|].
      rewrite bool_decide_eq_true_2 by done.
      by destruct (getsize fs (join INBOX_FOLDER filename)) as [n|[]].
    + right. split; [done|]. split; [done|].
      rewrite bool_decide_eq_false_2 by done.
      by destruct (getsize fs (join INBOX_FOLDER filename)) as [n|[]].
Qed.

Lemma create_task_file_subseteq now fs filename :
  files fs ⊆ files (create_task_file size now fs filename).1.1
  ∧ (∀ p, p ≠ task_path filename →
       files (create_task_file size now fs filename).1.1 !! p = files fs !! p)
  ∧ unwritable (create_task_file size now fs filename).1.1 = unwritable fs
  ∧ unreadable (create_task_file size now fs filename).1.1 = unreadable fs.
Proof.
  destruct (create_task_file_cases now fs filename)
    as [[_ ->]|[(_ & _ & ->)|(Hnone & _ & ->)]]; try done.
  simpl. split; [by apply insert_subseteq|]. split; [|done].
  intros p Hp. by rewrite lookup_insert_ne.
Qed.

End EmitterFacts.

(** X12.  The emitter returns [True] exactly when no file is at the
    destination and the destination can be written.  Whatever it returns,
    it changes no existing file and no path other than the destination, and
    when it returns [False] it has changed nothing. *)
Theorem emission_result (size : nat → string) (now : datetime)
  (fs : filesystem) (filename : string) :
  ((create_task_file size now fs filename).1.2 = true
   ↔ files fs !! task_path filename = None
     ∧ task_path filename ∉ unwritable fs)
  ∧ ((create_task_file size now fs filename).1.2 = false →
     (create_task_file size now fs filename).1.1 = fs)
  ∧ files fs ⊆ files (create_task_file size now fs filename).1.1
  ∧ (∀ p : string,
       p ≠ task_path filename →
       files (create_task_file size now fs filename).1.1 !! p
       = files fs !! p).
Proof.
  destruct (create_task_file_subseteq size now fs filename) as (Hsub & Hp & _).
  split; [|split; [|done]].
  - destruct (create_task_file_cases size now fs filename)
      as [[Hsome ->]|[(Hnone & Hw & ->)|(Hnone & Hw & ->)]]; simpl.
    + split; [done|]. by intros [? _].
    + split; [done|]. by intros [_ ?].
    + done.
  - destruct (create_task_file_cases size now fs filename)
      as [[Hsome ->]|[(Hnone & Hw & ->)|(Hnone & Hw & ->)]]; simpl; done.
Qed.

Lemma emission_result_witness :
  (create_task_file Sample.human Sample.now Sample.locked_inbox_fs "c.txt").1.2
  = false
  ∧ (create_task_file Sample.human Sample.now Sample.locked_inbox_fs
       "c.txt").1.1
    = Sample.locked_inbox_fs.
Proof.
  split; [vm_compute; reflexivity|].
  apply (proj1 (proj2 (emission_result Sample.human Sample.now
                         Sample.locked_inbox_fs "c.txt"))).
  vm_compute. reflexivity.
Defined.

(** X13.  When the emitter creates the task file, the file holds the
    template filled with the filename, the detection time and the size of the
    source file, which is known also of a file that cannot be opened for
    reading; a source file that has vanished since the listing does not
    fail the emission: size 0 and "Unknown (file not found)" are written
    instead. *)
Theorem emitted_task_content (size : nat → string) (now : datetime)
  (fs : filesystem) (filename : string) :
  files fs !! task_path filename = None →
  task_path filename ∉ unwritable fs →
  (create_task_file size now fs filename).1.2 = true
  ∧ files (create_task_file size now fs filename).1.1 !! task_path filename
    = Some (task_content filename (source_size size fs filename).1
              (source_size size fs filename).2 (get_current_timestamp now))
  ∧ (∀ content : string,
       files fs !! join INBOX_FOLDER filename = Some content →
       source_size size fs filename
       = (String.length content, size (String.length content)))
  ∧ (files fs !! join INBOX_FOLDER filename = None →
     source_size size fs filename = (0, "Unknown (file not found)")).
Proof.
  intros Hnone Hw.
  destruct (create_task_file_cases size now fs filename)
    as [[Hsome _]|[(_ & Hw' & _)|(_ & _ & ->)]]; [done..|].
  simpl. split; [done|]. split; [by rewrite lookup_insert_eq|].
  unfold source_size, getsize.
  split; [intros content|]; by intros ->.
Qed.

Lemma emitted_task_content_witness :
  files (create_task_file Sample.human Sample.now
           WatcherSamples.sealed_inbox_fs "c.txt").1.1 !! task_path "c.txt"
  = Some (task_content "c.txt" 3 "3.0 B" "2026-02-12 09:05:07")
  ∧ files (create_task_file Sample.human Sample.now (Sample.no_failures ∅)
             "gone.txt").1.1 !! task_path "gone.txt"
    = Some (task_content "gone.txt" 0 "Unknown (file not found)"
              "2026-02-12 09:05:07").
Proof.
  split.
  - destruct (emitted_task_content Sample.human Sample.now
                WatcherSamples.sealed_inbox_fs "c.txt") as (_ & H & _).
    + reflexivity.
    + apply not_elem_of_empty.
    + exact H.
  - destruct (emitted_task_content Sample.human Sample.now
                (Sample.no_failures ∅) "gone.txt") as (_ & H & _).
    + reflexivity.
    + apply not_elem_of_empty.
    + exact H.
Defined.

(** X14.  Two filenames with the same destination path share one task
    file: once the task of the first is created, the emission for the second
    is skipped, although no task was ever written for it.  Filenames that
    differ only by spaces against dots collide in this way. *)
Theorem colliding_names_skip (size : nat → string) (now later : datetime)
  (fs fs1 : filesystem) (first second : string)
  (records : list log_record) :
  task_path first = task_path second →
  create_task_file size now fs first = (fs1, true, records) →
  create_task_file size later fs1 second
  = (fs1, false,
     [(WARNING, "Task already exists: " +:+ task_filename second)]).
Proof.
  intros Hsame H. apply create_task_file_true in H as [_ [content Hw]].
  apply exists_after_write in Hw as (Hex & _).
  unfold create_task_file. by rewrite <- Hsame, Hex.
Qed.

Lemma colliding_names_skip_witness :
  task_path "a b.txt" = task_path "a.b.txt"
  ∧ create_task_file Sample.human Sample.later
      (create_task_file Sample.human Sample.now (Sample.no_failures ∅)
         "a b.txt").1.1 "a.b.txt"
    = ((create_task_file Sample.human Sample.now (Sample.no_failures ∅)
          "a b.txt").1.1, false,
       [(WARNING, "Task already exists: task_a_b_txt.md")]).
Proof.
  split; [reflexivity|].
  apply (colliding_names_skip Sample.human Sample.now Sample.later
           (Sample.no_failures ∅) _ "a b.txt" "a.b.txt"
           (create_task_file Sample.human Sample.now (Sample.no_failures ∅)
              "a b.txt").2).
  - reflexivity.
  - vm_compute. reflexivity.
Defined.

(** ** Further properties: a poll cycle *)

Section CycleFacts.

Variable size : nat → string.

Lemma process_file_hidden now st filename :
  startswith "." filename = true → process_file size now st filename = st.
Proof. intros H. unfold process_file. by rewrite H. Qed.

Lemma process_file_seen now st filename :
  filename ∈ processed_files st → process_file size now st filename = st.
Proof.
  intros H. unfold process_file. destruct (startswith "." filename); [done|].
  by rewrite bool_decide_eq_true_2.
Qed.

Lemma process_file_new now st filename :
  startswith "." filename = false →
  filename ∉ processed_files st →
  fsys (process_file size now st filename)
  = (create_task_file size now (fsys st) filename).1.1
  ∧ processed_files (process_file size now st filename)
    = processed_files st ∪ {[ filename ]}.
Proof.
  intros Hvis Hnew. unfold process_file. rewrite Hvis.
  rewrite bool_decide_eq_false_2 by done.
  by destruct (create_task_file size now (fsys st) filename)
    as [[fs' []] records].
Qed.

Lemma process_file_elem now st filename x :
  x ∈ processed_files (process_file size now st filename)
  ↔ x ∈ processed_files st ∨ (x = filename ∧ startswith "." filename = false).
Proof.
  destruct (startswith "." filename) eqn:Hvis.
  - rewrite process_file_hidden by done. intuition congruence.
  - destruct (decide (filename ∈ processed_files st)) as [Hin|Hnew].
    + rewrite process_file_seen by done. intuition congruence.
    + destruct (process_file_new now st filename Hvis Hnew) as [_ ->].
      rewrite elem_of_union, elem_of_singleton. intuition congruence.
Qed.

Lemma process_files_elem now names st x :
  x ∈ processed_files (fold_left (process_file size now) names st)
  ↔ x ∈ processed_files st ∨ (x ∈ names ∧ startswith "." x = false).
Proof.
  revert st. induction names as [|n names IH]; intros st; simpl.
  - split; [by left|]. intros [?|[Hin _]]; [done|].
    by apply elem_of_nil in Hin.
  - rewrite IH, process_file_elem, elem_of_cons. intuition congruence.
Qed.

Lemma elem_of_visible names x :
  x ∈ visible names ↔ x ∈ names ∧ startswith "." x = false.
Proof. unfold visible. rewrite list_elem_of_filter. tauto. Qed.

Lemma process_files_seen_set now names st :
  processed_files (fold_left (process_file size now) names st)
  = processed_files st ∪ list_to_set (visible names).
Proof.
  apply set_eq. intros x.
  by rewrite process_files_elem, elem_of_union, elem_of_list_to_set,
    elem_of_visible.
Qed.

Lemma process_file_fs now st filename :
  files (fsys st) ⊆ files (fsys (process_file size now st filename))
  ∧ (∀ p, p ≠ task_path filename →
       files (fsys (process_file size now st filename)) !! p
       = files (fsys st) !! p)
  ∧ unwritable (fsys (process_file size now st filename))
    = unwritable (fsys st)
  ∧ unreadable (fsys (process_file size now st filename))
    = unreadable (fsys st).
Proof.
  destruct (startswith "." filename) eqn:Hvis;
    [by rewrite process_file_hidden|].
  destruct (decide (filename ∈ processed_files st)) as [Hin|Hnew];
    [by rewrite process_file_seen|].
  destruct (process_file_new now st filename Hvis Hnew) as [-> _].
  apply create_task_file_subseteq.
Qed.

Lemma process_files_fs now names st :
  files (fsys st) ⊆ files (fsys (fold_left (process_file size now) names st))
  ∧ (∀ p, (∀ f, f ∈ names → p ≠ task_path f) →
       files (fsys (fold_left (process_file size now) names st)) !! p
       = files (fsys st) !! p)
  ∧ unwritable (fsys (fold_left (process_file size now) names st))
    = unwritable (fsys st)
  ∧ unreadable (fsys (fold_left (process_file size now) names st))
    = unreadable (fsys st).
Proof.
  revert st. induction names as [|n names IH]; intros st; simpl.
  - by repeat split.
  - destruct (IH (process_file size now st n)) as (Hsub & Hp & Hw & Hr).
    destruct (process_file_fs now st n) as (Hsub1 & Hp1 & Hw1 & Hr1).
    split; [by etrans|]. split; [|split; congruence].
    intros p Hnot. rewrite Hp by (intros f Hf; apply Hnot; by right).
    apply Hp1, Hnot. by left.
Qed.

Lemma process_files_nothing_new now names st :
  (∀ f, f ∈ names → startswith "." f = true ∨ f ∈ processed_files st) →
  fold_left (process_file size now) names st = st.
Proof.
  induction names as [|n names IH]; intros Hold; [done|]. simpl.
  assert (process_file size now st n = st) as ->.
  { destruct (Hold n) as [?|?]; [by left|..].
    - by apply process_file_hidden.
    - by apply process_file_seen. }
  apply IH. intros f Hf. apply Hold. by right.
Qed.

Lemma process_files_task_exists now names st filename :
  filename ∈ names →
  startswith "." filename = false →
  filename ∉ processed_files st →
  task_path filename ∉ unwritable (fsys st) →
  is_Some (files (fsys (fold_left (process_file size now) names st))
             !! task_path filename).
Proof.
  revert st. induction names as [|n names IH]; intros st Hin Hvis Hnew Hw;
    [by apply elem_of_nil in Hin|].
  simpl. destruct (decide (n = filename)) as [->|Hne].
  - destruct (process_files_fs now names (process_file size now st filename))
      as (Hsub & _).
    assert (is_Some (files (fsys (process_file size now st filename))
                       !! task_path filename)) as [c Hc].
    { destruct (process_file_new now st filename Hvis Hnew) as [-> _].
      destruct (create_task_file_cases size now (fsys st) filename)
        as [[Hsome ->]|[(_ & Hw' & _)|(_ & _ & ->)]]; [|done|].
      - simpl. by destruct (files (fsys st) !! task_path filename); [eexists|].
      - simpl. rewrite lookup_insert_eq. by eexists. }
    exists c. by eapply lookup_weaken.
  - apply elem_of_cons in Hin as [?|Hin]; [congruence|].
    destruct (process_file_fs now st n) as (_ & _ & Hw1 & _).
    apply IH; [done..| |by rewrite Hw1].
    rewrite process_file_elem. intuition congruence.
Qed.

End CycleFacts.

Lemma mark_existing_elem (names : list string) (seen : gset string) x :
  x ∈ fold_left mark_existing names seen
  ↔ x ∈ seen ∨ (x ∈ names ∧ startswith "." x = false).
Proof.
  revert seen. induction names as [|n names IH]; intros seen.
  - split; [by left|]. intros [?|[Hin _]]; [done|].
    by apply elem_of_nil in Hin.
  - change (fold_left mark_existing (n :: names) seen)
      with (fold_left mark_existing names (mark_existing seen n)).
    rewrite IH, elem_of_cons. unfold mark_existing.
    destruct (startswith "." n) eqn:Hn.
    + intuition congruence.
    + rewrite elem_of_union, elem_of_singleton. intuition congruence.
Qed.

Lemma cycle_seen_set_aux (size : nat → string) (now : datetime) (st : watcher) :
  processed_files (check_for_new_files size now st)
  = processed_files st ∪ list_to_set (visible (get_files_in_inbox (fsys st)).1)
  ∧ processed_files (initial_scan st)
    = processed_files st
      ∪ list_to_set (visible (get_files_in_inbox (fsys st)).1).
Proof.
  split.
  - unfold check_for_new_files.
    destruct (get_files_in_inbox (fsys st)) as [names records].
    apply (process_files_seen_set size now names
             {| fsys := fsys st; processed_files := processed_files st;
                logged := logged st ++ records |}).
  - unfold initial_scan.
    destruct (get_files_in_inbox (fsys st)) as [names records]. simpl.
    apply set_eq. intros x.
    by rewrite mark_existing_elem, elem_of_union, elem_of_list_to_set,
      elem_of_visible.
Qed.

Lemma cycle_without_new_files_aux (size : nat → string) (now : datetime)
  (st : watcher) :
  (∀ f : string,
     f ∈ (get_files_in_inbox (fsys st)).1 →
     startswith "." f = true ∨ f ∈ processed_files st) →
  fsys (check_for_new_files size now st) = fsys st
  ∧ processed_files (check_for_new_files size now st) = processed_files st.
Proof.
  intros Hold. unfold check_for_new_files.
  destruct (get_files_in_inbox (fsys st)) as [names records]. simpl in Hold.
  by rewrite process_files_nothing_new.
Qed.

(** X15.  After a poll cycle the seen-set is the seen-set before it
    together with the listed files that are not hidden, and nothing else;
    the same holds of the initial scan. *)
Theorem cycle_seen_set (size : nat → string) (now : datetime) (st : watcher) :
  processed_files (check_for_new_files size now st)
  = processed_files st ∪ list_to_set (visible (get_files_in_inbox (fsys st)).1)
  ∧ processed_files (initial_scan st)
    = processed_files st
      ∪ list_to_set (visible (get_files_in_inbox (fsys st)).1).
Proof. apply cycle_seen_set_aux. Qed.

(** X16.  A poll cycle in which every listed file is hidden or already
    seen creates no task: the file system and the seen-set stay as they
    are. *)
Theorem cycle_without_new_files (size : nat → string) (now : datetime)
  (st : watcher) :
  (∀ f : string,
     f ∈ (get_files_in_inbox (fsys st)).1 →
     startswith "." f = true ∨ f ∈ processed_files st) →
  fsys (check_for_new_files size now st) = fsys st
  ∧ processed_files (check_for_new_files size now st) = processed_files st.
Proof. apply cycle_without_new_files_aux. Qed.

Lemma cycle_without_new_files_witness :
  fsys (check_for_new_files Sample.human Sample.now
          {| fsys := WatcherSamples.startup_fs;
             processed_files := {[ "a.txt"; "b.txt" ]}; logged := [] |})
  = WatcherSamples.startup_fs.
Proof.
  apply (cycle_without_new_files Sample.human Sample.now
           {| fsys := WatcherSamples.startup_fs;
              processed_files := {[ "a.txt"; "b.txt" ]}; logged := [] |}).
  intros f Hf. vm_compute in Hf.
  repeat (apply elem_of_cons in Hf as [->|Hf]);
    try (by apply elem_of_nil in Hf);
    first [left; reflexivity|right; set_solver].
Defined.

(** X17.  Files that are in the inbox when the watcher starts get no task:
    as long as the environment changes nothing, the watcher leaves the file
    system as it found it, and its seen-set is the set of the files of the
    first listing that are not hidden. *)
Theorem startup_files_get_no_task (size : nat → string) (fs : filesystem)
  (cycles : list (datetime * (filesystem → filesystem))) :
  (∀ cycle, cycle ∈ cycles → ∀ fs' : filesystem, cycle.2 fs' = fs') →
  fsys (main size fs cycles) = fs
  ∧ processed_files (main size fs cycles)
    = list_to_set (visible (get_files_in_inbox fs).1).
Proof.
  intros Hidle. unfold main.
  set (st0 := initial_scan {| fsys := fs; processed_files := ∅; logged := [] |}).
  assert (fsys st0 = fs) as Hfs0.
  { unfold st0, initial_scan. simpl. by destruct (get_files_in_inbox fs). }
  assert (processed_files st0 = list_to_set (visible (get_files_in_inbox fs).1))
    as Hseen0.
  { unfold st0. rewrite (proj2 (cycle_seen_set_aux size Sample.now _)). simpl.
    apply set_eq. intros x. rewrite elem_of_union. split; [|by right].
    intros [Hx|?]; [|done]. by apply not_elem_of_empty in Hx. }
  clearbody st0. revert st0 Hfs0 Hseen0.
  induction cycles as [|[now env] cycles IH]; intros st Hfs Hseen; [done|].
  simpl.
  destruct (cycle_without_new_files_aux size now st) as [Hfs' Hseen'].
  { intros f Hf. destruct (startswith "." f) eqn:Hvis; [by left|right].
    rewrite Hseen, elem_of_list_to_set, elem_of_visible. by rewrite <- Hfs. }
  apply IH.
  - intros cycle Hc. apply Hidle. by right.
  - simpl. rewrite (Hidle (now, env)) by (by left). simpl. congruence.
  - simpl. congruence.
Qed.

Lemma startup_files_get_no_task_witness :
  fsys (main Sample.human WatcherSamples.startup_fs
          [WatcherSamples.idle; WatcherSamples.idle])
  = WatcherSamples.startup_fs.
Proof.
  apply (startup_files_get_no_task Sample.human WatcherSamples.startup_fs
           [WatcherSamples.idle; WatcherSamples.idle]).
  intros cycle Hc fs'.
  repeat (apply elem_of_cons in Hc as [->|Hc]);
    [reflexivity|reflexivity|by apply elem_of_nil in Hc].
Defined.

Lemma main_loop_hidden (size : nat → string) (f : string)
  (cycles : list (datetime * (filesystem → filesystem))) (st : watcher) :
  startswith "." f = true →
  f ∉ processed_files st →
  f ∉ processed_files (main_loop size cycles st).
Proof.
  intros Hhid. revert st.
  induction cycles as [|[now env] cycles IH]; intros st Hnot; [done|].
  simpl. apply IH. simpl.
  rewrite (proj1 (cycle_seen_set_aux size now st)).
  rewrite elem_of_union, elem_of_list_to_set, elem_of_visible.
  intros [?|[_ ?]]; [done|congruence].
Qed.

(** X18.  A hidden file, one whose name starts with a dot, never gets a
    task and never enters the seen-set, whatever happens to the inbox. *)
Theorem hidden_never_seen (size : nat → string) (f : string) :
  startswith "." f = true →
  (∀ (now : datetime) (st : watcher), process_file size now st f = st)
  ∧ (∀ (fs : filesystem)
       (cycles : list (datetime * (filesystem → filesystem))),
       f ∉ processed_files (main size fs cycles)).
Proof.
  intros Hhid. split.
  - intros now st. by apply process_file_hidden.
  - intros fs cycles. unfold main. apply main_loop_hidden; [done|].
    rewrite (proj2 (cycle_seen_set_aux size Sample.now _)). simpl.
    rewrite elem_of_union, elem_of_list_to_set, elem_of_visible.
    intros [Hx|[_ ?]]; [by apply not_elem_of_empty in Hx|congruence].
Qed.

Lemma hidden_never_seen_witness :
  ".DS_Store" ∉ processed_files
    (main Sample.human WatcherSamples.startup_fs
       [WatcherSamples.drop_c; WatcherSamples.idle]).
Proof.
  apply (hidden_never_seen Sample.human ".DS_Store"). reflexivity.
Defined.

(** X19.  After a poll cycle, every listed file that is not hidden and
    was not seen before has a task file at its destination, provided the
    destination can be written: created in this cycle, or found there. *)
Theorem new_files_have_tasks (size : nat → string) (now : datetime)
  (st : watcher) (f : string) :
  f ∈ (get_files_in_inbox (fsys st)).1 →
  startswith "." f = false →
  f ∉ processed_files st →
  task_path f ∉ unwritable (fsys st) →
  exists_ (fsys (check_for_new_files size now st)) (task_path f) = true.
Proof.
  intros Hin Hvis Hnew Hw. unfold check_for_new_files, exists_.
  destruct (get_files_in_inbox (fsys st)) as [names records]. simpl in Hin.
  apply bool_decide_eq_true.
  by apply (process_files_task_exists size now names
              {| fsys := fsys st; processed_files := processed_files st;
                 logged := logged st ++ records |}).
Qed.

Lemma new_files_have_tasks_witness :
  exists_ (fsys (check_for_new_files Sample.human Sample.now
                   {| fsys := Sample.inbox_fs; processed_files := ∅;
                      logged := [] |}))
    (task_path "My Invoice.pdf") = true.
Proof.
  apply (new_files_have_tasks Sample.human Sample.now
           {| fsys := Sample.inbox_fs; processed_files := ∅; logged := [] |}
           "My Invoice.pdf").
  - vm_compute. apply list_elem_of_here.
  - reflexivity.
  - apply not_elem_of_empty.
  - apply not_elem_of_empty.
Defined.

(** X20.  A poll cycle only adds files: every file that exists keeps its
    content, the inbox included; the only paths it writes are destinations
    of listed files; the access rights stay as they are. *)
Theorem cycle_only_adds_tasks (size : nat → string) (now : datetime)
  (st : watcher) :
  files (fsys st) ⊆ files (fsys (check_for_new_files size now st))
  ∧ (∀ p : string,
       (∀ f : string, f ∈ (get_files_in_inbox (fsys st)).1 → p ≠ task_path f) →
       files (fsys (check_for_new_files size now st)) !! p
       = files (fsys st) !! p)
  ∧ unwritable (fsys (check_for_new_files size now st)) = unwritable (fsys st)
  ∧ unreadable (fsys (check_for_new_files size now st)) = unreadable (fsys st).
Proof.
  unfold check_for_new_files.
  destruct (get_files_in_inbox (fsys st)) as [names records]. simpl.
  apply (process_files_fs size now names
           {| fsys := fsys st; processed_files := processed_files st;
              logged := logged st ++ records |}).
Qed.

Lemma cycle_only_adds_tasks_witness :
  files (fsys (check_for_new_files Sample.human Sample.now
                 {| fsys := Sample.inbox_fs; processed_files := ∅;
                    logged := [] |})) !! "Inbox/My Invoice.pdf"
  = Some "abc".
Proof.
  rewrite (proj1 (proj2 (cycle_only_adds_tasks Sample.human Sample.now
                           {| fsys := Sample.inbox_fs; processed_files := ∅;
                              logged := [] |}))).
  - reflexivity.
  - intros f Hf. vm_compute in Hf.
    apply elem_of_cons in Hf as [->|Hf]; [discriminate|].
    by apply elem_of_nil in Hf.
Defined.

(** ** Further properties: parsing what the rewrite wrote *)

Lemma ascii_digit_pretty_char (x : N) : ascii_digit (pretty_N_char x) = true.
Proof. unfold pretty_N_char. by repeat case_match. Qed.

Lemma ascii_digit_tame (c : ascii) :
  ascii_digit c = true →
  negb (Ascii.eqb c newline) && negb (Ascii.eqb c "#"%char) = true.
Proof.
  intros Hc. destruct (Ascii.eqb_spec c newline) as [->|_]; [done|].
  by destruct (Ascii.eqb_spec c "#"%char) as [->|_].
Qed.

Lemma tame_app (s t : string) : tame (s +:+ t) = tame s && tame t.
Proof.
  induction s as [|c s IH]; [done|]. rewrite append_cons. simpl.
  rewrite IH. by rewrite !andb_assoc.
Qed.

Lemma pretty_N_go_tame (x : N) (s : string) :
  tame s = true → tame (pretty_N_go x s) = true.
Proof.
  revert s. induction (N.lt_wf_0 x) as [x _ IH]; intros s Hs.
  destruct (decide (x = 0)%N) as [->|Hx]; [by rewrite pretty_N_go_0|].
  rewrite pretty_N_go_step by lia. apply IH.
  - apply N.div_lt; lia.
  - simpl. by rewrite ascii_digit_tame, Hs by apply ascii_digit_pretty_char.
Qed.

Lemma pretty_nat_tame (n : nat) : tame (pretty n) = true.
Proof.
  unfold pretty, pretty_nat, pretty, pretty_N.
  case_decide; [done|]. by apply pretty_N_go_tame.
Qed.

Lemma zeros_tame (k : nat) : tame (zeros k) = true.
Proof. induction k; [done|]. simpl. by rewrite IHk. Qed.

Lemma pad_tame (w n : nat) : tame (pad w n) = true.
Proof. unfold pad. by rewrite tame_app, zeros_tame, pretty_nat_tame. Qed.

Lemma get_today_date_tame now : tame (get_today_date now) = true.
Proof.
  unfold get_today_date, strftime_ymd. by rewrite !tame_app, !pad_tame.
Qed.

Lemma strftime_hms_tame now : tame (strftime_hms now) = true.
Proof. unfold strftime_hms. by rewrite !tame_app, !pad_tame. Qed.

(** A string that ends a line after text without newline is a line. *)
Lemma proper_app (s t : string) :
  tame s = true → proper t = true → proper (s +:+ t) = true.
Proof.
  intros Hs Ht. induction s as [|c s IH]; [done|].
  simpl in Hs. apply andb_true_iff in Hs as [Hc Hs].
  apply andb_true_iff in Hc as [Hc _].
  rewrite append_cons. specialize (IH Hs).
  destruct (s +:+ t) as [|c' r] eqn:E; [done|].
  change (negb (Ascii.eqb c newline) && proper (String c' r) = true).
  by rewrite Hc, IH.
Qed.

Lemma proper_cons (c : ascii) (line : string) :
  proper (String c line) = true →
  (line = EmptyString ∧ Ascii.eqb c newline = true)
  ∨ (Ascii.eqb c newline = false ∧ proper line = true).
Proof.
  destruct line as [|c' r]; [by left|]. intros H. right.
  change (negb (Ascii.eqb c newline) && proper (String c' r) = true) in H.
  apply andb_true_iff in H as [Hc Hr]. by apply negb_true_iff in Hc.
Qed.

Lemma readlines_proper (line rest : string) :
  proper line = true → readlines (line +:+ rest) = line :: readlines rest.
Proof.
  induction line as [|c line IH]; [done|]. intros Hp.
  apply proper_cons in Hp as [[-> Hc]|[Hc Hp]].
  - change (String c "" +:+ rest) with (String c rest). simpl. by rewrite Hc.
  - rewrite append_cons. simpl. rewrite Hc, IH by done. done.
Qed.

Lemma readlines_writelines_app (lines : list string) (rest : string) :
  forallb proper lines = true →
  readlines (writelines lines +:+ rest) = lines ++ readlines rest.
Proof.
  induction lines as [|l lines IH]; intros Hp; [done|].
  simpl in Hp. apply andb_true_iff in Hp as [Hl Hp].
  rewrite writelines_cons, append_assoc, readlines_proper by done.
  by rewrite IH.
Qed.

(** A text without [#] does not hold the activity marker. *)
Lemma tame_no_marker (s : string) :
  tame s = true → contains "## Activity Log" s = false.
Proof.
  induction s as [|c s IH]; [done|]. intros Hs.
  simpl in Hs. apply andb_true_iff in Hs as [Hc Hs].
  apply andb_true_iff in Hc as [_ Hc]. apply negb_true_iff in Hc.
  rewrite contains_unfold, IH by done.
  change (String.prefix "## Activity Log" (String c s))
    with (if ascii_dec "#"%char c
          then String.prefix "# Activity Log" s else false).
  destruct (ascii_dec "#"%char c) as [<-|_]; [done|].
  apply orb_false_r.
Qed.

Lemma forallb_cons_true {A : Type} (f : A → bool) (x : A) (l : list A) :
  forallb f l = true → f x = true → forallb f (x :: l) = true.
Proof. intros Hl Hx. simpl. by rewrite Hx, Hl. Qed.

Lemma rotation_status_lines now n :
  rotation_status now n = writelines (status_lines now n).
Proof.
  unfold rotation_status, status_lines. rewrite !writelines_cons.
  change (writelines []) with "". by rewrite !append_assoc.
Qed.

Lemma status_lines_proper now n :
  forallb proper (status_lines now n) = true.
Proof.
  unfold status_lines.
  repeat (apply forallb_cons_true; [|first [reflexivity|idtac]]);
    try reflexivity;
    repeat (apply proper_app;
            [first [reflexivity|apply pretty_nat_tame|apply strftime_hms_tame
                   |apply get_today_date_tame]|]);
    reflexivity.
Qed.

Lemma tame_skip_marker (s t : string) :
  tame s = true →
  contains "## Activity Log" (s +:+ t) = contains "## Activity Log" t.
Proof.
  induction s as [|c s IH]; [done|]. intros Hs.
  simpl in Hs. apply andb_true_iff in Hs as [Hc Hs].
  apply andb_true_iff in Hc as [_ Hc]. apply negb_true_iff in Hc.
  rewrite append_cons, contains_unfold, IH by done.
  change (String.prefix "## Activity Log" (String c (s +:+ t)))
    with (if ascii_dec "#"%char c
          then String.prefix "# Activity Log" (s +:+ t) else false).
  by destruct (ascii_dec "#"%char c) as [<-|_].
Qed.

Lemma status_lines_no_marker now n :
  forallb (λ line, negb (contains "## Activity Log" line)) (status_lines now n)
  = true.
Proof.
  unfold status_lines.
  repeat (apply forallb_cons_true; [|first [reflexivity|idtac]]);
    try reflexivity;
    apply negb_true_iff;
    repeat (rewrite tame_skip_marker;
            [|first [reflexivity|apply pretty_nat_tame|apply strftime_hms_tame
                    |apply get_today_date_tame]]);
    reflexivity.
Qed.

Lemma activity_body_lines (today_entries : list string) :
  activity_body today_entries = writelines (activity_lines today_entries).
Proof.
  unfold activity_body, activity_lines. by destruct (list_truthy today_entries).
Qed.

Lemma activity_lines_ok (today_entries : list string) :
  forallb proper today_entries = true →
  forallb plain today_entries = true →
  forallb proper (activity_lines today_entries) = true
  ∧ forallb (λ line, plain line && not_subheader line)
      (activity_lines today_entries) = true.
Proof.
  intros Hp Hplain. unfold activity_lines.
  destruct (list_truthy today_entries); [|done].
  rewrite forallb_forall in Hp, Hplain.
  split; apply forallb_forall; intros line Hin;
    apply list_elem_of_In, list_elem_of_filter in Hin as [Hsub Hin];
    apply list_elem_of_In in Hin.
  - by apply Hp.
  - by rewrite Hplain, Hsub.
Qed.

(** The text of the rewritten log, as lines. *)
Lemma rotated_content_lines now hl today_entries fl n :
  rotated_content now hl today_entries fl n
  = writelines
      (hl ++ status_lines now n
       ++ ["## Activity Log
"; "
"; "### Today's Activity
"; "
"]
       ++ activity_lines today_entries ++ ["---
"; "
"])
    +:+ writelines fl.
Proof.
  unfold rotated_content.
  rewrite rotation_status_lines, activity_body_lines, !writelines_app.
  by rewrite !append_assoc.
Qed.

Lemma layout_reassoc {A : Type} (h body f : list A) (a b c d x y : A) :
  (h ++ a :: b :: c :: d :: body ++ [x; y]) ++ f
  = h ++ a :: b :: c :: d :: body ++ x :: y :: f.
Proof. rewrite <- app_assoc. simpl. by rewrite <- app_assoc. Qed.

(** X21.  The log that the rewrite step writes parses back to the header
    it was given followed by the status block, to the footer it was given,
    and to an empty partition map: the lines written below "### Today's
    Activity" are in no bucket, so that the next rotation finds nothing for
    today, and the header has grown by one status block. *)
Theorem rewritten_log_has_no_bucket (now : datetime)
  (hl today_entries fl : list string) (n : nat) :
  forallb proper hl = true →
  forallb (λ line, negb (contains "## Activity Log" line)) hl = true →
  forallb proper today_entries = true →
  forallb plain today_entries = true →
  wf_footer fl = true →
  readlines (writelines fl) = fl →
  parse_lines (readlines (rotated_content now hl today_entries fl n))
  = (hl ++ status_lines now n, [], fl).
Proof.
  intros Hhl Hplain Hte Hteplain Hfl Hflr.
  destruct (activity_lines_ok today_entries Hte Hteplain) as [Hap Hab].
  rewrite rotated_content_lines, readlines_writelines_app, Hflr.
  - replace (hl ++ status_lines now n
             ++ ["## Activity Log
"; "
"; "### Today's Activity
"; "
"]
             ++ activity_lines today_entries ++ ["---
"; "
"])
      with ((hl ++ status_lines now n) ++ "## Activity Log
" :: "
" :: "### Today's Activity
" :: "
" :: activity_lines today_entries ++ ["---
"; "
"])
      by (by rewrite <- !app_assoc).
    rewrite layout_reassoc.
    apply rewritten_layout_has_no_bucket; [|done..].
    by rewrite forallb_app, Hplain, status_lines_no_marker.
  - by rewrite !forallb_app, Hhl, status_lines_proper, Hap.
Qed.

Lemma rewritten_log_has_no_bucket_witness :
  parse_lines
    (readlines
       (rotated_content Sample.later ["# System Log
"] ["### 2026-02-12
"; "- did x
"] ["## Notes
"; "n"] 0))
  = (["# System Log
"] ++ status_lines Sample.later 0, [], ["## Notes
"; "n"]).
Proof.
  apply (rewritten_log_has_no_bucket Sample.later ["# System Log
"] ["### 2026-02-12
"; "- did x
"] ["## Notes
"; "n"] 0); reflexivity.
Defined.
